(** * ModelAdaptor: the in-memory record store and the HTTP handlers

    A shallow embedding of [shared/schema.ts], [server/storage.ts] and
    [server/routes.ts], and of the client's cost estimate.

    Conventions of the embedding.
    - A JavaScript number that holds an identifier, a counter, a length or a
      stored sampling setting is an integer of [Z]; [parseInt] yields
      [option Z], [None] standing for NaN.
    - A string is the sequence of its code units (restricted to units below
      256); [String.length] is JavaScript's [.length].
    - A nullable column is an [option]: [None] is both [null] and an absent
      key, which the handlers never tell apart (they only test truthiness).
    - [Map<number, V>] keeps insertion order, so it is an association list
      ([JsMap]), not an unordered finite map.
    - A message array is a mutable object that several variables may name:
      arrays live in a heap ([Heap]) and records hold their address.
    - [new Date()] is an argument [now] of the operation that calls it.
    - The provider call [chat.sendMessage] is a parameter of the chat handler;
      [None] is a rejected promise (any provider error).
    - Request bodies are well-typed: a key that is present holds a value of
      the type its column or the handler expects, and a stored [messages]
      is an array of [{ role, content }] objects. Under this typing no
      storage call and no statement outside the provider call throws, so
      the handlers' catch-all 500 branches are not reached and are left
      out; the chat handler's inner [catch] is the provider's failure. *)

From Stdlib Require Import ZArith QArith String Ascii List Lia Bool Sorted.
From stdpp Require Import base option list strings.

Local Close Scope Q_scope.
Local Open Scope Z_scope.
Local Open Scope string_scope.
Local Open Scope list_scope.

Set Default Proof Using "Type".

(** ** [Map<number, V>]: an insertion-ordered association list *)

Module JsMap.
Section ops.
Context {V : Type}.

Definition t := list (Z * V).

Definition empty : t := [].

(** [Map.prototype.get] *)
Fixpoint get (k : Z) (m : t) : option V :=
  match m with
  | [] => None
  | (k', v) :: m' => if Z.eqb k k' then Some v else get k m'
  end.

(** [Map.prototype.set]: an existing key keeps its place, a new key goes
    to the end. *)
Fixpoint set (k : Z) (v : V) (m : t) : t :=
  match m with
  | [] => [(k, v)]
  | (k', v') :: m' =>
      if Z.eqb k k' then (k, v) :: m' else (k', v') :: set k v m'
  end.

Definition has (k : Z) (m : t) : bool :=
  match get k m with Some _ => true | None => false end.

Definition remove (k : Z) (m : t) : t :=
  List.filter (fun kv => negb (Z.eqb k (fst kv))) m.

(** [Map.prototype.delete]: whether the key was there, and the map
    without it. *)
Definition delete (k : Z) (m : t) : bool * t := (has k m, remove k m).

(** [Array.from(map.values())] *)
Definition values (m : t) : list V := map snd m.
End ops.
Arguments t : clear implicits.
End JsMap.

(** ** The schema ([shared/schema.ts]) *)

Definition Time := Z.

(** Address of a message array in the heap. *)
Abbreviation loc := nat (only parsing).

Module Message.
Record t := mk { role : string; content : string }.
End Message.

Module User.
Record t := mk { id : Z; username : string; password : string }.
End User.

Module InsertUser.
Record t := mk { username : string; password : string }.
End InsertUser.

Module Wrapper.
(** [userId] is [notNull] in the table, but the record the constructor
    builds for the demo wrapper has none (see [initializeDemoData]). *)
Record t := mk {
  id : Z;
  name : string;
  description : option string;
  baseModel : string;
  systemPrompt : option string;
  temperature : option Z;
  maxTokens : option Z;
  topP : option Z;
  enableMemory : option bool;
  knowledgeBaseIntegration : option bool;
  webSearchAccess : option bool;
  userId : option Z;
  createdAt : Time
}.
End Wrapper.

Module InsertWrapper.
Record t := mk {
  name : string;
  description : option string;
  baseModel : string;
  systemPrompt : option string;
  temperature : option Z;
  maxTokens : option Z;
  topP : option Z;
  enableMemory : option bool;
  knowledgeBaseIntegration : option bool;
  webSearchAccess : option bool;
  userId : option Z
}.
End InsertWrapper.

(** [Partial<InsertWrapper>], also the shape of a request body: for each
    key, [None] when the key is absent; for a nullable column [Some None]
    is an explicit [null]. *)
Module PartialWrapper.
Record t := mk {
  name : option string;
  description : option (option string);
  baseModel : option string;
  systemPrompt : option (option string);
  temperature : option (option Z);
  maxTokens : option (option Z);
  topP : option (option Z);
  enableMemory : option (option bool);
  knowledgeBaseIntegration : option (option bool);
  webSearchAccess : option (option bool);
  userId : option Z
}.
End PartialWrapper.

Module Prompt.
Record t := mk {
  id : Z;
  name : string;
  content : string;
  description : option string;
  wrapperId : Z;
  tags : option (list string);
  createdAt : Time
}.
End Prompt.

Module InsertPrompt.
Record t := mk {
  name : string;
  content : string;
  description : option string;
  wrapperId : Z;
  tags : option (list string)
}.
End InsertPrompt.

Module PartialPrompt.
Record t := mk {
  name : option string;
  content : option string;
  description : option (option string);
  wrapperId : option Z;
  tags : option (option (list string))
}.
End PartialPrompt.

(** The [config] column is an untyped JSON document that no handler
    inspects; it is kept as its text. *)
Definition Json := string.

Module Integration.
Record t := mk {
  id : Z;
  name : string;
  type : string;
  config : Json;
  wrapperId : Z;
  createdAt : Time
}.
End Integration.

Module InsertIntegration.
Record t := mk {
  name : string;
  type : string;
  config : Json;
  wrapperId : Z
}.
End InsertIntegration.

Module PartialIntegration.
Record t := mk {
  name : option string;
  type : option string;
  config : option Json;
  wrapperId : option Z
}.
End PartialIntegration.

(** [messages] is the address of the array the record holds. *)
Module Conversation.
Record t := mk {
  id : Z;
  wrapperId : Z;
  messages : loc;
  createdAt : Time
}.
End Conversation.

Module InsertConversation.
Record t := mk { wrapperId : Z; messages : loc }.
End InsertConversation.

Module PartialConversation.
Record t := mk { wrapperId : option Z; messages : option loc }.
End PartialConversation.

(** ** The heap of message arrays *)

Abbreviation Heap := (list (list Message.t)) (only parsing).

(** [[]]: a new array, at the next free address. *)
Definition alloc (a : list Message.t) (h : Heap) : loc * Heap :=
  (length h, h ++ [a]).

(** The elements of the array at [l]. Every address a record holds was
    handed out by [alloc]; for an address never allocated the array reads
    as empty. *)
Definition read (h : Heap) (l : loc) : list Message.t :=
  default [] (h !! l).

(** [array.push(m)], in place: every holder of [l] sees the new element. *)
Definition push (l : loc) (m : Message.t) (h : Heap) : Heap :=
  <[l := read h l ++ [m]]> h.

(** ** The record store ([server/storage.ts]) *)

Record MemStorage := mkStorage {
  users : JsMap.t User.t;
  wrappers : JsMap.t Wrapper.t;
  prompts : JsMap.t Prompt.t;
  integrations : JsMap.t Integration.t;
  conversations : JsMap.t Conversation.t;
  currentUserId : Z;
  currentWrapperId : Z;
  currentPromptId : Z;
  currentIntegrationId : Z;
  currentConversationId : Z
}.

Definition with_users (f : JsMap.t User.t -> JsMap.t User.t) (n : Z)
    (s : MemStorage) : MemStorage :=
  mkStorage (f (users s)) (wrappers s) (prompts s) (integrations s)
    (conversations s) n (currentWrapperId s) (currentPromptId s)
    (currentIntegrationId s) (currentConversationId s).

Definition with_wrappers (f : JsMap.t Wrapper.t -> JsMap.t Wrapper.t) (n : Z)
    (s : MemStorage) : MemStorage :=
  mkStorage (users s) (f (wrappers s)) (prompts s) (integrations s)
    (conversations s) (currentUserId s) n (currentPromptId s)
    (currentIntegrationId s) (currentConversationId s).

Definition with_prompts (f : JsMap.t Prompt.t -> JsMap.t Prompt.t) (n : Z)
    (s : MemStorage) : MemStorage :=
  mkStorage (users s) (wrappers s) (f (prompts s)) (integrations s)
    (conversations s) (currentUserId s) (currentWrapperId s) n
    (currentIntegrationId s) (currentConversationId s).

Definition with_integrations
    (f : JsMap.t Integration.t -> JsMap.t Integration.t) (n : Z)
    (s : MemStorage) : MemStorage :=
  mkStorage (users s) (wrappers s) (prompts s) (f (integrations s))
    (conversations s) (currentUserId s) (currentWrapperId s)
    (currentPromptId s) n (currentConversationId s).

Definition with_conversations
    (f : JsMap.t Conversation.t -> JsMap.t Conversation.t) (n : Z)
    (s : MemStorage) : MemStorage :=
  mkStorage (users s) (wrappers s) (prompts s) (integrations s)
    (f (conversations s)) (currentUserId s) (currentWrapperId s)
    (currentPromptId s) (currentIntegrationId s) n.

(** *** Users *)

Definition createUser (insertUser : InsertUser.t) (s : MemStorage)
    : User.t * MemStorage :=
  let id := currentUserId s in
  let user :=
    User.mk id (InsertUser.username insertUser) (InsertUser.password insertUser) in
  (user, with_users (JsMap.set id user) (id + 1) s).

Definition getUser (id : Z) (s : MemStorage) : option User.t :=
  JsMap.get id (users s).

(** *** Wrappers *)

(** [{ ...insertWrapper, id, createdAt }]: the fields of the input as they
    are, no column default is filled in. *)
Definition createWrapper (now : Time) (insertWrapper : InsertWrapper.t)
    (s : MemStorage) : Wrapper.t * MemStorage :=
  let id := currentWrapperId s in
  let wrapper :=
    Wrapper.mk id
      (InsertWrapper.name insertWrapper)
      (InsertWrapper.description insertWrapper)
      (InsertWrapper.baseModel insertWrapper)
      (InsertWrapper.systemPrompt insertWrapper)
      (InsertWrapper.temperature insertWrapper)
      (InsertWrapper.maxTokens insertWrapper)
      (InsertWrapper.topP insertWrapper)
      (InsertWrapper.enableMemory insertWrapper)
      (InsertWrapper.knowledgeBaseIntegration insertWrapper)
      (InsertWrapper.webSearchAccess insertWrapper)
      (InsertWrapper.userId insertWrapper)
      now in
  (wrapper, with_wrappers (JsMap.set id wrapper) (id + 1) s).

Definition getWrapper (id : Z) (s : MemStorage) : option Wrapper.t :=
  JsMap.get id (wrappers s).

(** [wrapper.userId === userId] *)
Definition getWrappersByUserId (userId : Z) (s : MemStorage) : list Wrapper.t :=
  List.filter
    (fun wrapper =>
       match Wrapper.userId wrapper with
       | Some u => Z.eqb u userId
       | None => false
       end)
    (JsMap.values (wrappers s)).

(** One key of [{ ...record, ...updatedData }]: a key of [updatedData]
    wins, an absent key leaves the record's value. *)
Definition spread {A : Type} (old : A) (upd : option A) : A :=
  match upd with Some v => v | None => old end.

Definition mergeWrapper (wrapper : Wrapper.t) (updatedData : PartialWrapper.t)
    : Wrapper.t :=
  Wrapper.mk
    (Wrapper.id wrapper)
    (spread (Wrapper.name wrapper) (PartialWrapper.name updatedData))
    (spread (Wrapper.description wrapper) (PartialWrapper.description updatedData))
    (spread (Wrapper.baseModel wrapper) (PartialWrapper.baseModel updatedData))
    (spread (Wrapper.systemPrompt wrapper) (PartialWrapper.systemPrompt updatedData))
    (spread (Wrapper.temperature wrapper) (PartialWrapper.temperature updatedData))
    (spread (Wrapper.maxTokens wrapper) (PartialWrapper.maxTokens updatedData))
    (spread (Wrapper.topP wrapper) (PartialWrapper.topP updatedData))
    (spread (Wrapper.enableMemory wrapper) (PartialWrapper.enableMemory updatedData))
    (spread (Wrapper.knowledgeBaseIntegration wrapper)
       (PartialWrapper.knowledgeBaseIntegration updatedData))
    (spread (Wrapper.webSearchAccess wrapper)
       (PartialWrapper.webSearchAccess updatedData))
    (match PartialWrapper.userId updatedData with
     | Some u => Some u
     | None => Wrapper.userId wrapper
     end)
    (Wrapper.createdAt wrapper).

Definition updateWrapper (id : Z) (updatedData : PartialWrapper.t)
    (s : MemStorage) : option Wrapper.t * MemStorage :=
  match JsMap.get id (wrappers s) with
  | None => (None, s)
  | Some wrapper =>
      let updatedWrapper := mergeWrapper wrapper updatedData in
      (Some updatedWrapper,
       with_wrappers (JsMap.set id updatedWrapper) (currentWrapperId s) s)
  end.

Definition deleteWrapper (id : Z) (s : MemStorage) : bool * MemStorage :=
  let (existed, m) := JsMap.delete id (wrappers s) in
  (existed, with_wrappers (fun _ => m) (currentWrapperId s) s).

(** *** Prompts *)

Definition createPrompt (now : Time) (insertPrompt : InsertPrompt.t)
    (s : MemStorage) : Prompt.t * MemStorage :=
  let id := currentPromptId s in
  let prompt :=
    Prompt.mk id
      (InsertPrompt.name insertPrompt)
      (InsertPrompt.content insertPrompt)
      (InsertPrompt.description insertPrompt)
      (InsertPrompt.wrapperId insertPrompt)
      (InsertPrompt.tags insertPrompt)
      now in
  (prompt, with_prompts (JsMap.set id prompt) (id + 1) s).

Definition getPrompt (id : Z) (s : MemStorage) : option Prompt.t :=
  JsMap.get id (prompts s).

Definition getPromptsByWrapperId (wrapperId : Z) (s : MemStorage)
    : list Prompt.t :=
  List.filter (fun prompt => Z.eqb (Prompt.wrapperId prompt) wrapperId)
    (JsMap.values (prompts s)).

Definition mergePrompt (prompt : Prompt.t) (updatedData : PartialPrompt.t)
    : Prompt.t :=
  Prompt.mk
    (Prompt.id prompt)
    (spread (Prompt.name prompt) (PartialPrompt.name updatedData))
    (spread (Prompt.content prompt) (PartialPrompt.content updatedData))
    (spread (Prompt.description prompt) (PartialPrompt.description updatedData))
    (spread (Prompt.wrapperId prompt) (PartialPrompt.wrapperId updatedData))
    (spread (Prompt.tags prompt) (PartialPrompt.tags updatedData))
    (Prompt.createdAt prompt).

Definition updatePrompt (id : Z) (updatedData : PartialPrompt.t)
    (s : MemStorage) : option Prompt.t * MemStorage :=
  match JsMap.get id (prompts s) with
  | None => (None, s)
  | Some prompt =>
      let updatedPrompt := mergePrompt prompt updatedData in
      (Some updatedPrompt,
       with_prompts (JsMap.set id updatedPrompt) (currentPromptId s) s)
  end.

Definition deletePrompt (id : Z) (s : MemStorage) : bool * MemStorage :=
  let (existed, m) := JsMap.delete id (prompts s) in
  (existed, with_prompts (fun _ => m) (currentPromptId s) s).

(** *** Integrations *)

Definition createIntegration (now : Time)
    (insertIntegration : InsertIntegration.t) (s : MemStorage)
    : Integration.t * MemStorage :=
  let id := currentIntegrationId s in
  let integration :=
    Integration.mk id
      (InsertIntegration.name insertIntegration)
      (InsertIntegration.type insertIntegration)
      (InsertIntegration.config insertIntegration)
      (InsertIntegration.wrapperId insertIntegration)
      now in
  (integration, with_integrations (JsMap.set id integration) (id + 1) s).

Definition getIntegration (id : Z) (s : MemStorage) : option Integration.t :=
  JsMap.get id (integrations s).

Definition getIntegrationsByWrapperId (wrapperId : Z) (s : MemStorage)
    : list Integration.t :=
  List.filter
    (fun integration => Z.eqb (Integration.wrapperId integration) wrapperId)
    (JsMap.values (integrations s)).

Definition mergeIntegration (integration : Integration.t)
    (updatedData : PartialIntegration.t) : Integration.t :=
  Integration.mk
    (Integration.id integration)
    (spread (Integration.name integration) (PartialIntegration.name updatedData))
    (spread (Integration.type integration) (PartialIntegration.type updatedData))
    (spread (Integration.config integration)
       (PartialIntegration.config updatedData))
    (spread (Integration.wrapperId integration)
       (PartialIntegration.wrapperId updatedData))
    (Integration.createdAt integration).

Definition updateIntegration (id : Z) (updatedData : PartialIntegration.t)
    (s : MemStorage) : option Integration.t * MemStorage :=
  match JsMap.get id (integrations s) with
  | None => (None, s)
  | Some integration =>
      let updatedIntegration := mergeIntegration integration updatedData in
      (Some updatedIntegration,
       with_integrations (JsMap.set id updatedIntegration)
         (currentIntegrationId s) s)
  end.

Definition deleteIntegration (id : Z) (s : MemStorage) : bool * MemStorage :=
  let (existed, m) := JsMap.delete id (integrations s) in
  (existed, with_integrations (fun _ => m) (currentIntegrationId s) s).

(** *** Conversations *)

Definition createConversation (now : Time)
    (insertConversation : InsertConversation.t) (s : MemStorage)
    : Conversation.t * MemStorage :=
  let id := currentConversationId s in
  let conversation :=
    Conversation.mk id
      (InsertConversation.wrapperId insertConversation)
      (InsertConversation.messages insertConversation)
      now in
  (conversation, with_conversations (JsMap.set id conversation) (id + 1) s).

Definition getConversation (id : Z) (s : MemStorage) : option Conversation.t :=
  JsMap.get id (conversations s).

Definition getConversationsByWrapperId (wrapperId : Z) (s : MemStorage)
    : list Conversation.t :=
  List.filter
    (fun conversation => Z.eqb (Conversation.wrapperId conversation) wrapperId)
    (JsMap.values (conversations s)).

Definition mergeConversation (conversation : Conversation.t)
    (updatedData : PartialConversation.t) : Conversation.t :=
  Conversation.mk
    (Conversation.id conversation)
    (spread (Conversation.wrapperId conversation)
       (PartialConversation.wrapperId updatedData))
    (spread (Conversation.messages conversation)
       (PartialConversation.messages updatedData))
    (Conversation.createdAt conversation).

Definition updateConversation (id : Z) (updatedData : PartialConversation.t)
    (s : MemStorage) : option Conversation.t * MemStorage :=
  match JsMap.get id (conversations s) with
  | None => (None, s)
  | Some conversation =>
      let updatedConversation := mergeConversation conversation updatedData in
      (Some updatedConversation,
       with_conversations (JsMap.set id updatedConversation)
         (currentConversationId s) s)
  end.

(** *** The constructor *)

Definition emptyStorage : MemStorage :=
  mkStorage JsMap.empty JsMap.empty JsMap.empty JsMap.empty JsMap.empty
    1 1 1 1 1.

(** [createUser] is [async]: [user] is a promise, so [user.id] is
    [undefined] and the demo wrapper carries no [userId]. The bodies of
    [createUser] and [createWrapper] have no [await] and run at once. *)
Definition initializeDemoData (now : Time) (s : MemStorage) : MemStorage :=
  let demoUser := InsertUser.mk "demo_user" "password123" in
  let (_, s) := createUser demoUser s in
  let demoWrapper :=
    InsertWrapper.mk
      "Customer Support Assistant"
      (Some "AI assistant that helps customer support agents respond to inquiries with accurate information from the knowledge base.")
      "Gemini Pro"
      (Some "You are a customer support assistant for a software company. You should be helpful, friendly, and knowledgeable. When you don't know the answer, refer to the knowledge base or suggest escalating to a human agent.")
      (Some 70) (Some 2048) (Some 90)
      (Some true) (Some true) (Some false)
      None in
  snd (createWrapper now demoWrapper s).

(** [new MemStorage()] *)
Definition newMemStorage (now : Time) : MemStorage :=
  initializeDemoData now emptyStorage.

(** The process state: the [storage] singleton and the heap of arrays. *)
Record World := mkWorld { storage : MemStorage; heap : Heap }.

Definition initialWorld (now : Time) : World := mkWorld (newMemStorage now) [].

(** ** JavaScript values of a request ([server/routes.ts]) *)

(** A scalar of a JSON body; [JsUndefined] is an absent key. *)
Inductive JsVal :=
| JsUndefined
| JsNull
| JsBool (b : bool)
| JsNum (n : Z)
| JsStr (s : string).

(** ToBoolean *)
Definition truthy (v : JsVal) : bool :=
  match v with
  | JsUndefined | JsNull => false
  | JsBool b => b
  | JsNum n => negb (Z.eqb n 0)
  | JsStr s => negb (String.eqb s "")
  end.

Definition truthyString (s : string) : bool := negb (String.eqb s "").

Definition truthyOptString (s : option string) : bool :=
  match s with Some s => truthyString s | None => false end.

Definition truthyOptNum (n : option Z) : bool :=
  match n with Some n => negb (Z.eqb n 0) | None => false end.

Definition isStrWhiteSpaceChar (c : ascii) : bool :=
  let n := N_of_ascii c in
  (N.leb 9 n && N.leb n 13 || N.eqb n 32 || N.eqb n 160)%N.

Fixpoint trimStart (s : string) : string :=
  match s with
  | String c s' => if isStrWhiteSpaceChar c then trimStart s' else s
  | EmptyString => s
  end.

Definition digitValue (c : ascii) : option Z :=
  let n := Z.of_N (N_of_ascii c) in
  if ((48 <=? n) && (n <=? 57))%Z then Some (n - 48)
  else if ((97 <=? n) && (n <=? 122))%Z then Some (n - 87)
  else if ((65 <=? n) && (n <=? 90))%Z then Some (n - 55)
  else None.

(** The value of the longest prefix of digits of the radix; [acc] is the
    value read so far, [None] while no digit has been read. *)
Fixpoint parseDigits (radix : Z) (acc : option Z) (s : string) : option Z :=
  match s with
  | EmptyString => acc
  | String c s' =>
      match digitValue c with
      | Some d =>
          if (d <? radix)%Z
          then parseDigits radix (Some (radix * default 0 acc + d)) s'
          else acc
      | None => acc
      end
  end.

(** [parseInt(string)] with no radix argument: leading white space, a
    sign, a [0x] prefix, then digits; NaN ([None]) when no digit follows. *)
Definition parseIntString (s : string) : option Z :=
  let s := trimStart s in
  let '(sign, s) :=
    match s with
    | String "-" r => (-1, r)
    | String "+" r => (1, r)
    | _ => (1, s)
    end in
  let '(radix, s) :=
    match s with
    | String "0" (String "x" r) => (16, r)
    | String "0" (String "X" r) => (16, r)
    | _ => (10, s)
    end in
  option_map (Z.mul sign) (parseDigits radix None s).

(** [parseInt(value)]: the value is first turned into a string; an integer
    (of magnitude below 10^21) prints as its decimal digits, [undefined],
    [null] and booleans print as words without a digit. *)
Definition parseInt (v : JsVal) : option Z :=
  match v with
  | JsStr s => parseIntString s
  | JsNum n => Some n
  | JsUndefined | JsNull | JsBool _ => None
  end.

(** ** The validation layer *)

Definition nullable {A : Type} (x : option (option A)) : option A :=
  match x with Some v => v | None => None end.

(** [insertWrapperSchema.parse]: [name], [baseModel] and [userId] are
    required, every other column is optional and nullable; [None] is a
    [ZodError]. The schema has no default of its own: an absent key stays
    absent. Bodies are taken well-typed: each key that is present holds a
    value of the column's type. *)
Definition insertWrapperSchema_parse (body : PartialWrapper.t)
    : option InsertWrapper.t :=
  match PartialWrapper.name body, PartialWrapper.baseModel body,
        PartialWrapper.userId body with
  | Some name, Some baseModel, Some userId =>
      Some (InsertWrapper.mk name
              (nullable (PartialWrapper.description body))
              baseModel
              (nullable (PartialWrapper.systemPrompt body))
              (nullable (PartialWrapper.temperature body))
              (nullable (PartialWrapper.maxTokens body))
              (nullable (PartialWrapper.topP body))
              (nullable (PartialWrapper.enableMemory body))
              (nullable (PartialWrapper.knowledgeBaseIntegration body))
              (nullable (PartialWrapper.webSearchAccess body))
              (Some userId))
  | _, _, _ => None
  end.

(** [insertWrapperSchema.partial().parse]: every key optional. *)
Definition insertWrapperSchema_partial_parse (body : PartialWrapper.t)
    : option PartialWrapper.t :=
  Some body.

Definition insertPromptSchema_parse (body : PartialPrompt.t)
    : option InsertPrompt.t :=
  match PartialPrompt.name body, PartialPrompt.content body,
        PartialPrompt.wrapperId body with
  | Some name, Some content, Some wrapperId =>
      Some (InsertPrompt.mk name content
              (nullable (PartialPrompt.description body))
              wrapperId
              (nullable (PartialPrompt.tags body)))
  | _, _, _ => None
  end.

Definition insertIntegrationSchema_parse (body : PartialIntegration.t)
    : option InsertIntegration.t :=
  match PartialIntegration.name body, PartialIntegration.type body,
        PartialIntegration.config body, PartialIntegration.wrapperId body with
  | Some name, Some type, Some config, Some wrapperId =>
      Some (InsertIntegration.mk name type config wrapperId)
  | _, _, _, _ => None
  end.

(** The body of [POST /wrappers/:wrapperId/conversations]: the [messages]
    key, when present, holds an array of messages. *)
Module ConversationBody.
Record t := mk { wrapperId : option Z; messages : option (list Message.t) }.
End ConversationBody.

(** ** Responses *)

Record Usage := mkUsage {
  prompt_tokens : Z;
  completion_tokens : Z;
  total_tokens : Z
}.

Module ChatResponse.
Record t := mk {
  message : string;
  conversationId : Z;
  usage : Usage;
  model : string
}.
End ChatResponse.

Inductive Body :=
| NoBody
| JsonError (error : string)
| JsonZodError
| JsonWrapper (w : Wrapper.t)
| JsonWrappers (ws : list Wrapper.t)
| JsonPrompt (p : Prompt.t)
| JsonPrompts (ps : list Prompt.t)
| JsonIntegration (i : Integration.t)
| JsonIntegrations (its : list Integration.t)
| JsonConversation (c : Conversation.t)
| JsonConversations (cs : list Conversation.t)
| JsonChat (r : ChatResponse.t).

Record Response := mkResponse { status : Z; body : Body }.

(** ** The wrapper, prompt, integration and conversation handlers *)

(** [GET /api/wrappers] *)
Definition getWrappersRoute (w : World) : Response * World :=
  let userId := 1 in
  (mkResponse 200 (JsonWrappers (getWrappersByUserId userId (storage w))), w).

(** [GET /api/wrappers/:id] *)
Definition getWrapperRoute (id : string) (w : World) : Response * World :=
  match parseIntString id with
  | None => (mkResponse 400 (JsonError "Invalid wrapper ID"), w)
  | Some id =>
      match getWrapper id (storage w) with
      | None => (mkResponse 404 (JsonError "Wrapper not found"), w)
      | Some wrapper => (mkResponse 200 (JsonWrapper wrapper), w)
      end
  end.

(** [req.body.userId = 1] *)
Definition forceUserId (body : PartialWrapper.t) : PartialWrapper.t :=
  PartialWrapper.mk
    (PartialWrapper.name body) (PartialWrapper.description body)
    (PartialWrapper.baseModel body) (PartialWrapper.systemPrompt body)
    (PartialWrapper.temperature body) (PartialWrapper.maxTokens body)
    (PartialWrapper.topP body) (PartialWrapper.enableMemory body)
    (PartialWrapper.knowledgeBaseIntegration body)
    (PartialWrapper.webSearchAccess body)
    (Some 1).

(** [POST /api/wrappers] *)
Definition postWrapperRoute (now : Time) (body : PartialWrapper.t)
    (w : World) : Response * World :=
  match insertWrapperSchema_parse (forceUserId body) with
  | None => (mkResponse 400 JsonZodError, w)
  | Some validatedData =>
      let (wrapper, s) := createWrapper now validatedData (storage w) in
      (mkResponse 201 (JsonWrapper wrapper), mkWorld s (heap w))
  end.

(** [PUT /api/wrappers/:id] *)
Definition putWrapperRoute (id : string) (body : PartialWrapper.t)
    (w : World) : Response * World :=
  match parseIntString id with
  | None => (mkResponse 400 (JsonError "Invalid wrapper ID"), w)
  | Some id =>
      match insertWrapperSchema_partial_parse body with
      | None => (mkResponse 400 JsonZodError, w)
      | Some validatedData =>
          match updateWrapper id validatedData (storage w) with
          | (None, _) => (mkResponse 404 (JsonError "Wrapper not found"), w)
          | (Some updatedWrapper, s) =>
              (mkResponse 200 (JsonWrapper updatedWrapper), mkWorld s (heap w))
          end
      end
  end.

(** [DELETE /api/wrappers/:id] *)
Definition deleteWrapperRoute (id : string) (w : World) : Response * World :=
  match parseIntString id with
  | None => (mkResponse 400 (JsonError "Invalid wrapper ID"), w)
  | Some id =>
      let (success, s) := deleteWrapper id (storage w) in
      if success
      then (mkResponse 204 NoBody, mkWorld s (heap w))
      else (mkResponse 404 (JsonError "Wrapper not found"), mkWorld s (heap w))
  end.

(** [GET /api/wrappers/:wrapperId/prompts] *)
Definition getPromptsRoute (wrapperId : string) (w : World)
    : Response * World :=
  match parseIntString wrapperId with
  | None => (mkResponse 400 (JsonError "Invalid wrapper ID"), w)
  | Some wrapperId =>
      (mkResponse 200 (JsonPrompts (getPromptsByWrapperId wrapperId (storage w))), w)
  end.

(** [req.body.wrapperId = wrapperId] *)
Definition promptBodyFor (wrapperId : Z) (body : PartialPrompt.t)
    : PartialPrompt.t :=
  PartialPrompt.mk (PartialPrompt.name body) (PartialPrompt.content body)
    (PartialPrompt.description body) (Some wrapperId) (PartialPrompt.tags body).

(** [POST /api/wrappers/:wrapperId/prompts] *)
Definition postPromptRoute (now : Time) (wrapperId : string)
    (body : PartialPrompt.t) (w : World) : Response * World :=
  match parseIntString wrapperId with
  | None => (mkResponse 400 (JsonError "Invalid wrapper ID"), w)
  | Some wrapperId =>
      match getWrapper wrapperId (storage w) with
      | None => (mkResponse 404 (JsonError "Wrapper not found"), w)
      | Some _ =>
          match insertPromptSchema_parse (promptBodyFor wrapperId body) with
          | None => (mkResponse 400 JsonZodError, w)
          | Some validatedData =>
              let (prompt, s) := createPrompt now validatedData (storage w) in
              (mkResponse 201 (JsonPrompt prompt), mkWorld s (heap w))
          end
      end
  end.

(** [GET /api/wrappers/:wrapperId/integrations] *)
Definition getIntegrationsRoute (wrapperId : string) (w : World)
    : Response * World :=
  match parseIntString wrapperId with
  | None => (mkResponse 400 (JsonError "Invalid wrapper ID"), w)
  | Some wrapperId =>
      (mkResponse 200
         (JsonIntegrations (getIntegrationsByWrapperId wrapperId (storage w))), w)
  end.

Definition integrationBodyFor (wrapperId : Z) (body : PartialIntegration.t)
    : PartialIntegration.t :=
  PartialIntegration.mk (PartialIntegration.name body)
    (PartialIntegration.type body) (PartialIntegration.config body)
    (Some wrapperId).

(** [POST /api/wrappers/:wrapperId/integrations] *)
Definition postIntegrationRoute (now : Time) (wrapperId : string)
    (body : PartialIntegration.t) (w : World) : Response * World :=
  match parseIntString wrapperId with
  | None => (mkResponse 400 (JsonError "Invalid wrapper ID"), w)
  | Some wrapperId =>
      match getWrapper wrapperId (storage w) with
      | None => (mkResponse 404 (JsonError "Wrapper not found"), w)
      | Some _ =>
          match insertIntegrationSchema_parse
                  (integrationBodyFor wrapperId body) with
          | None => (mkResponse 400 JsonZodError, w)
          | Some validatedData =>
              let (integration, s) :=
                createIntegration now validatedData (storage w) in
              (mkResponse 201 (JsonIntegration integration), mkWorld s (heap w))
          end
      end
  end.

(** [GET /api/wrappers/:wrapperId/conversations] *)
Definition getConversationsRoute (wrapperId : string) (w : World)
    : Response * World :=
  match parseIntString wrapperId with
  | None => (mkResponse 400 (JsonError "Invalid wrapper ID"), w)
  | Some wrapperId =>
      (mkResponse 200
         (JsonConversations (getConversationsByWrapperId wrapperId (storage w))),
       w)
  end.

(** [POST /api/wrappers/:wrapperId/conversations]. The array of the body
    enters the heap when the record that holds it is created. *)
Definition postConversationRoute (now : Time) (wrapperId : string)
    (body : ConversationBody.t) (w : World) : Response * World :=
  match parseIntString wrapperId with
  | None => (mkResponse 400 (JsonError "Invalid wrapper ID"), w)
  | Some wrapperId =>
      match getWrapper wrapperId (storage w) with
      | None => (mkResponse 404 (JsonError "Wrapper not found"), w)
      | Some _ =>
          match ConversationBody.messages body with
          | None => (mkResponse 400 JsonZodError, w)
          | Some messages =>
              let (l, h) := alloc messages (heap w) in
              let validatedData := InsertConversation.mk wrapperId l in
              let (conversation, s) :=
                createConversation now validatedData (storage w) in
              (mkResponse 201 (JsonConversation conversation), mkWorld s h)
          end
      end
  end.

(** ** The chat handler *)

(** What the handler hands to the provider's client. *)
Module Gemini.
Record Part := mkPart { text : string }.
Record Content := mkContent { role : string; parts : list Part }.

(** [temperature] and [topP] are fractions; a quotient of the stored
    integer by 100 is kept exact. *)
Record GenerationConfig := mkGenerationConfig {
  temperature : Q;
  topP : Q;
  maxOutputTokens : Z
}.

Inductive HarmCategory :=
| HARM_CATEGORY_HARASSMENT
| HARM_CATEGORY_HATE_SPEECH
| HARM_CATEGORY_SEXUALLY_EXPLICIT
| HARM_CATEGORY_DANGEROUS_CONTENT.

Inductive HarmBlockThreshold :=
| BLOCK_LOW_AND_ABOVE
| BLOCK_MEDIUM_AND_ABOVE
| BLOCK_ONLY_HIGH
| BLOCK_NONE.

Record SafetySetting := mkSafetySetting {
  category : HarmCategory;
  threshold : HarmBlockThreshold
}.

Record StartChatParams := mkStartChatParams {
  generationConfig : GenerationConfig;
  safetySettings : list SafetySetting;
  history : list Content
}.
End Gemini.

Module ChatBody.
(** [message] is the text of the key; an absent key is the empty string
    (both are falsy). *)
Record t := mk {
  wrapperId : JsVal;
  message : string;
  conversationId : JsVal
}.
End ChatBody.

Definition modelNameOf (wrapper : Wrapper.t) : string :=
  if String.eqb (Wrapper.baseModel wrapper) "Gemini Pro" then "gemini-pro"
  else if String.eqb (Wrapper.baseModel wrapper) "Gemini Pro Vision"
       then "gemini-pro-vision"
       else "gemini-pro".

(** The callback of [messages.map]. *)
Definition toGemini (msg : Message.t) : Gemini.Content :=
  if String.eqb (Message.role msg) "system" then
    Gemini.mkContent "user"
      [Gemini.mkPart ("(System instruction: " ++ Message.content msg ++ ")")]
  else if String.eqb (Message.role msg) "user" then
    Gemini.mkContent "user" [Gemini.mkPart (Message.content msg)]
  else
    Gemini.mkContent "model" [Gemini.mkPart (Message.content msg)].

(** [stored ? stored / 100 : fallback]: [null], [undefined] and [0] are
    falsy. *)
Definition scaledOr (stored : option Z) (fallback : Q) : Q :=
  match stored with
  | Some n => if Z.eqb n 0 then fallback else Qdiv (inject_Z n) (inject_Z 100)
  | None => fallback
  end.

(** [stored || fallback] *)
Definition valueOr (stored : option Z) (fallback : Z) : Z :=
  match stored with
  | Some n => if Z.eqb n 0 then fallback else n
  | None => fallback
  end.

(** The [generationConfig] of [model.startChat]. *)
Definition generationConfigOf (wrapper : Wrapper.t) : Gemini.GenerationConfig :=
  Gemini.mkGenerationConfig
    (scaledOr (Wrapper.temperature wrapper) 0.7%Q)
    (scaledOr (Wrapper.topP wrapper) 0.9%Q)
    (valueOr (Wrapper.maxTokens wrapper) 2048).

Definition safetySettingsOf : list Gemini.SafetySetting :=
  [ Gemini.mkSafetySetting
      Gemini.HARM_CATEGORY_HARASSMENT Gemini.BLOCK_MEDIUM_AND_ABOVE;
    Gemini.mkSafetySetting
      Gemini.HARM_CATEGORY_HATE_SPEECH Gemini.BLOCK_MEDIUM_AND_ABOVE;
    Gemini.mkSafetySetting
      Gemini.HARM_CATEGORY_SEXUALLY_EXPLICIT Gemini.BLOCK_MEDIUM_AND_ABOVE;
    Gemini.mkSafetySetting
      Gemini.HARM_CATEGORY_DANGEROUS_CONTENT Gemini.BLOCK_MEDIUM_AND_ABOVE ].

(** The argument of [model.startChat]. *)
Definition startChatParamsOf (wrapper : Wrapper.t)
    (geminiMessages : list Gemini.Content) : Gemini.StartChatParams :=
  Gemini.mkStartChatParams (generationConfigOf wrapper) safetySettingsOf
    (removelast geminiMessages).

(** [Math.floor(n / 4)] on lengths. *)
Definition estimatedUsage (message responseText : string) : Usage :=
  mkUsage
    (Z.of_nat (String.length message) / 4)
    (Z.of_nat (String.length responseText) / 4)
    ((Z.of_nat (String.length message) + Z.of_nat (String.length responseText)) / 4).

Definition systemMessage (content : string) : Message.t :=
  Message.mk "system" content.
Definition userMessage (content : string) : Message.t :=
  Message.mk "user" content.
Definition assistantMessage (content : string) : Message.t :=
  Message.mk "assistant" content.

Section Chat.
(** The provider: the model chosen, the chat session's parameters and the
    text sent give the response text, or an error. *)
Variable sendMessage :
  string -> Gemini.StartChatParams -> string -> option string.

(** The conversation the request names, if it names one that exists. *)
Definition loadConversation (conversationId : JsVal) (s : MemStorage)
    : option Conversation.t :=
  if truthy conversationId
  then match parseInt conversationId with
       | Some id => getConversation id s
       | None => None
       end
  else None.

(** The first half of the handler, up to the provider call: the array
    the handler works on and the heap after the two pushes. *)
Definition assemble (wrapper : Wrapper.t) (message : string)
    (conversation : option Conversation.t) (h : Heap) : loc * Heap :=
  let (fresh, h) := alloc [] h in
  let messages :=
    match conversation with
    | Some c => Conversation.messages c
    | None => fresh
    end in
  let h :=
    if truthyOptString (Wrapper.systemPrompt wrapper)
       && (length (read h messages) =? 0)%nat
    then push messages
           (systemMessage (default "" (Wrapper.systemPrompt wrapper))) h
    else h in
  (messages, push messages (userMessage message) h).

(** "Update or create conversation": the record the response names and
    the store after the write. *)
Definition persist (now : Time) (wid : Z) (messages : loc)
    (conversation : option Conversation.t) (s : MemStorage)
    : Conversation.t * MemStorage :=
  match conversation with
  | Some c =>
      (c,
       snd (updateConversation (Conversation.id c)
              (PartialConversation.mk None (Some messages)) s))
  | None =>
      createConversation now (InsertConversation.mk wid messages) s
  end.

(** [POST /api/chat]. After the push of the user message the array is
    never empty, so [lastMessage] and its one part exist; reading them off
    an empty array would throw inside the inner [try], hence [failed]. *)
Definition postChatRoute (now : Time) (body : ChatBody.t) (w : World)
    : Response * World :=
  let wrapperId := ChatBody.wrapperId body in
  let message := ChatBody.message body in
  let conversationId := ChatBody.conversationId body in
  if negb (truthy wrapperId) || negb (truthyString message) then
    (mkResponse 400 (JsonError "Wrapper ID and message are required"), w)
  else
    match parseInt wrapperId with
    | None => (mkResponse 404 (JsonError "Wrapper not found"), w)
    | Some wid =>
    match getWrapper wid (storage w) with
    | None => (mkResponse 404 (JsonError "Wrapper not found"), w)
    | Some wrapper =>
        let conversation := loadConversation conversationId (storage w) in
        let (messages, h) := assemble wrapper message conversation (heap w) in
        let modelName := modelNameOf wrapper in
        let geminiMessages := map toGemini (read h messages) in
        let params := startChatParamsOf wrapper geminiMessages in
        let failed :=
          (mkResponse 500 (JsonError "Error communicating with AI model"),
           mkWorld (storage w) h) in
        match last geminiMessages with
        | None => failed
        | Some lastMessage =>
        match Gemini.parts lastMessage with
        | [] => failed
        | part :: _ =>
        match sendMessage modelName params (Gemini.text part) with
        | None => failed
        | Some responseText =>
            let h := push messages (assistantMessage responseText) h in
            let (conversation, s) :=
              persist now wid messages conversation (storage w) in
            (mkResponse 200
               (JsonChat
                  (ChatResponse.mk responseText (Conversation.id conversation)
                     (estimatedUsage message responseText) modelName)),
             mkWorld s h)
        end
        end
        end
    end
    end.
End Chat.

(** What a client reads of conversation [id]: its messages in order. *)
Definition transcript (id : Z) (w : World) : option (list Message.t) :=
  match getConversation id (storage w) with
  | Some c => Some (read (heap w) (Conversation.messages c))
  | None => None
  end.

(** ** Notions used in the statements *)

(** The messages put in front of the new user turn: the wrapper's system
    prompt, when it is non-empty and the array is empty. *)
Definition seed (wrapper : Wrapper.t) (prior : list Message.t)
    : list Message.t :=
  if truthyOptString (Wrapper.systemPrompt wrapper)
     && (length prior =? 0)%nat
  then [systemMessage (default "" (Wrapper.systemPrompt wrapper))]
  else [].

(** The array the handler works on. *)
Definition target (conversation : option Conversation.t) (h : Heap) : loc :=
  match conversation with
  | Some c => Conversation.messages c
  | None => length h
  end.

(** Every conversation is filed under its own id, which the counter has
    passed, and holds an allocated array. *)
Definition storeOk (w : World) : Prop :=
  forall id c,
    getConversation id (storage w) = Some c ->
    Conversation.id c = id /\
    (Conversation.messages c < length (heap w))%nat /\
    id < currentConversationId (storage w).

(** ** The server as a transition system *)

Inductive Request :=
| GetWrappers
| GetWrapper (id : string)
| PostWrapper (now : Time) (body : PartialWrapper.t)
| PutWrapper (id : string) (body : PartialWrapper.t)
| DeleteWrapper (id : string)
| GetPrompts (wrapperId : string)
| PostPrompt (now : Time) (wrapperId : string) (body : PartialPrompt.t)
| GetIntegrations (wrapperId : string)
| PostIntegration (now : Time) (wrapperId : string) (body : PartialIntegration.t)
| GetConversations (wrapperId : string)
| PostConversation (now : Time) (wrapperId : string) (body : ConversationBody.t)
| PostChat (sendMessage : string -> Gemini.StartChatParams -> string -> option string)
    (now : Time) (body : ChatBody.t).

Definition handle (r : Request) (w : World) : Response * World :=
  match r with
  | GetWrappers => getWrappersRoute w
  | GetWrapper id => getWrapperRoute id w
  | PostWrapper now body => postWrapperRoute now body w
  | PutWrapper id body => putWrapperRoute id body w
  | DeleteWrapper id => deleteWrapperRoute id w
  | GetPrompts wrapperId => getPromptsRoute wrapperId w
  | PostPrompt now wrapperId body => postPromptRoute now wrapperId body w
  | GetIntegrations wrapperId => getIntegrationsRoute wrapperId w
  | PostIntegration now wrapperId body => postIntegrationRoute now wrapperId body w
  | GetConversations wrapperId => getConversationsRoute wrapperId w
  | PostConversation now wrapperId body => postConversationRoute now wrapperId body w
  | PostChat sendMessage now body => postChatRoute sendMessage now body w
  end.

(** The worlds the server can be in: the one at start-up, and any world a
    request leads to. *)
Inductive reachable : World -> Prop :=
| reachable_initial now : reachable (initialWorld now)
| reachable_step r w : reachable w -> reachable (snd (handle r w)).

(** The worlds after a list of requests, served in order. *)
Fixpoint serve (rs : list Request) (w : World) : World :=
  match rs with
  | [] => w
  | r :: rs => serve rs (snd (handle r w))
  end.

(** ** Scenarios *)

(** A provider that answers every text, and one that is down. *)
Definition echoProvider
    : string -> Gemini.StartChatParams -> string -> option string :=
  fun _ _ text => Some ("re: " ++ text)%string.

Definition failingProvider
    : string -> Gemini.StartChatParams -> string -> option string :=
  fun _ _ _ => None.

Definition demoSystemPrompt : string :=
  "You are a customer support assistant for a software company. You should be helpful, friendly, and knowledgeable. When you don't know the answer, refer to the knowledge base or suggest escalating to a human agent.".

(** The demo wrapper as the constructor files it, at time 0. *)
Definition demoWrapper : Wrapper.t :=
  Wrapper.mk 1 "Customer Support Assistant"
    (Some "AI assistant that helps customer support agents respond to inquiries with accurate information from the knowledge base.")
    "Gemini Pro" (Some demoSystemPrompt)
    (Some 70) (Some 2048) (Some 90) (Some true) (Some true) (Some false)
    None 0.

(** A first chat with the demo wrapper, answered: conversation 1. *)
Definition helloBody : ChatBody.t := ChatBody.mk (JsNum 1) "hello" JsUndefined.

Definition afterHello : World :=
  serve [PostChat echoProvider 1 helloBody] (initialWorld 0).

(** The same client goes on in conversation 1. *)
Definition againBody : ChatBody.t := ChatBody.mk (JsNum 1) "again" (JsNum 1).

(** A conversation created empty through
    [POST /api/wrappers/1/conversations]. *)
Definition emptyConversation : World :=
  serve [PostConversation 1 "1" (ConversationBody.mk None (Some []))]
    (initialWorld 0).

(** A second wrapper, created through [POST /api/wrappers], next to the
    demo wrapper and its conversation 1. *)
Definition otherWrapperBody : PartialWrapper.t :=
  PartialWrapper.mk (Some "Other") None (Some "Gemini Pro Vision")
    None None None None None None None None.

Definition twoWrappers : World :=
  serve [PostChat echoProvider 1 helloBody; PostWrapper 2 otherWrapperBody]
    (initialWorld 0).

Definition otherWrapper : Wrapper.t :=
  Wrapper.mk 2 "Other" None "Gemini Pro Vision" None None None None None None
    None (Some 1) 2.

(** Wrapper 2 asks to go on in conversation 1, which is wrapper 1's. *)
Definition crossBody : ChatBody.t := ChatBody.mk (JsNum 2) "mine?" (JsNum 1).

(** ** The usage estimate of the specification *)

(** The estimate in the words of the specification: the ceiling of a
    quarter of the character count. *)
Definition ceilQuarter (n : Z) : Z := (n + 3) / 4.

Definition answering (responseText : string)
    : string -> Gemini.StartChatParams -> string -> option string :=
  fun _ _ _ => Some responseText.

Definition dozenBody : ChatBody.t :=
  ChatBody.mk (JsNum 1) "twelve chars" JsUndefined.

(** [PUT /api/wrappers/1] with [{ temperature: 0, topP: 0 }]. *)
Definition zeroSamplingBody : PartialWrapper.t :=
  PartialWrapper.mk None None None None (Some (Some 0)) None (Some (Some 0))
    None None None None.

Definition zeroSampling : World :=
  serve [PutWrapper "1" zeroSamplingBody] (initialWorld 0).

(** A provider that answers only a session opened with temperature 0.7
    and topP 0.9. *)
Definition defaultsOnlyProvider
    : string -> Gemini.StartChatParams -> string -> option string :=
  fun _ params _ =>
    let config := Gemini.generationConfig params in
    if Qeq_bool (Gemini.temperature config) 0.7%Q
       && Qeq_bool (Gemini.topP config) 0.9%Q
    then Some "defaults"
    else None.

(** [POST /api/wrappers] with [{ name: "Minimal", baseModel: "Gemini Pro" }]. *)
Definition minimalWrapperBody : PartialWrapper.t :=
  PartialWrapper.mk (Some "Minimal") None (Some "Gemini Pro")
    None None None None None None None None.

Definition somePromptBody : PartialPrompt.t :=
  PartialPrompt.mk (Some "Greeting") (Some "Say hello") None None None.

(** ** Merged records *)

(** A key of the update decides the field; a field without a key in the
    update is the old one. *)
Definition suppliedOrKept {A : Type} (upd : option A) (old new : A) : Prop :=
  match upd with
  | Some v => new = v
  | None => new = old
  end.

Definition wrapperMerged (old : Wrapper.t) (upd : PartialWrapper.t)
    (new : Wrapper.t) : Prop :=
  Wrapper.id new = Wrapper.id old /\
  Wrapper.createdAt new = Wrapper.createdAt old /\
  suppliedOrKept (PartialWrapper.name upd) (Wrapper.name old) (Wrapper.name new) /\
  suppliedOrKept (PartialWrapper.description upd)
    (Wrapper.description old) (Wrapper.description new) /\
  suppliedOrKept (PartialWrapper.baseModel upd)
    (Wrapper.baseModel old) (Wrapper.baseModel new) /\
  suppliedOrKept (PartialWrapper.systemPrompt upd)
    (Wrapper.systemPrompt old) (Wrapper.systemPrompt new) /\
  suppliedOrKept (PartialWrapper.temperature upd)
    (Wrapper.temperature old) (Wrapper.temperature new) /\
  suppliedOrKept (PartialWrapper.maxTokens upd)
    (Wrapper.maxTokens old) (Wrapper.maxTokens new) /\
  suppliedOrKept (PartialWrapper.topP upd) (Wrapper.topP old) (Wrapper.topP new) /\
  suppliedOrKept (PartialWrapper.enableMemory upd)
    (Wrapper.enableMemory old) (Wrapper.enableMemory new) /\
  suppliedOrKept (PartialWrapper.knowledgeBaseIntegration upd)
    (Wrapper.knowledgeBaseIntegration old) (Wrapper.knowledgeBaseIntegration new) /\
  suppliedOrKept (PartialWrapper.webSearchAccess upd)
    (Wrapper.webSearchAccess old) (Wrapper.webSearchAccess new) /\
  suppliedOrKept (option_map Some (PartialWrapper.userId upd))
    (Wrapper.userId old) (Wrapper.userId new).

Definition promptMerged (old : Prompt.t) (upd : PartialPrompt.t)
    (new : Prompt.t) : Prop :=
  Prompt.id new = Prompt.id old /\
  Prompt.createdAt new = Prompt.createdAt old /\
  suppliedOrKept (PartialPrompt.name upd) (Prompt.name old) (Prompt.name new) /\
  suppliedOrKept (PartialPrompt.content upd)
    (Prompt.content old) (Prompt.content new) /\
  suppliedOrKept (PartialPrompt.description upd)
    (Prompt.description old) (Prompt.description new) /\
  suppliedOrKept (PartialPrompt.wrapperId upd)
    (Prompt.wrapperId old) (Prompt.wrapperId new) /\
  suppliedOrKept (PartialPrompt.tags upd) (Prompt.tags old) (Prompt.tags new).

Definition integrationMerged (old : Integration.t)
    (upd : PartialIntegration.t) (new : Integration.t) : Prop :=
  Integration.id new = Integration.id old /\
  Integration.createdAt new = Integration.createdAt old /\
  suppliedOrKept (PartialIntegration.name upd)
    (Integration.name old) (Integration.name new) /\
  suppliedOrKept (PartialIntegration.type upd)
    (Integration.type old) (Integration.type new) /\
  suppliedOrKept (PartialIntegration.config upd)
    (Integration.config old) (Integration.config new) /\
  suppliedOrKept (PartialIntegration.wrapperId upd)
    (Integration.wrapperId old) (Integration.wrapperId new).

Definition conversationMerged (old : Conversation.t)
    (upd : PartialConversation.t) (new : Conversation.t) : Prop :=
  Conversation.id new = Conversation.id old /\
  Conversation.createdAt new = Conversation.createdAt old /\
  suppliedOrKept (PartialConversation.wrapperId upd)
    (Conversation.wrapperId old) (Conversation.wrapperId new) /\
  suppliedOrKept (PartialConversation.messages upd)
    (Conversation.messages old) (Conversation.messages new).

(** A populated store: the demo wrapper with a prompt, an integration and
    a conversation of its own. *)
Definition someIntegrationBody : PartialIntegration.t :=
  PartialIntegration.mk (Some "Docs") (Some "knowledge_base")
    (Some "{}") None.

Definition populated : World :=
  serve [PostPrompt 1 "1" somePromptBody;
         PostIntegration 2 "1" someIntegrationBody;
         PostChat echoProvider 3 helloBody]
    (initialWorld 0).

(** ** The rest of the store *)

(** [getUserByUsername]: the first user, in insertion order, with the
    name. *)
Definition getUserByUsername (username : string) (s : MemStorage)
    : option User.t :=
  List.find (fun user => String.eqb (User.username user) username)
    (JsMap.values (users s)).

(** ** Identities *)

(** A map whose keys grow along its insertion order, whose records carry
    the key they are filed under, and whose keys the counter [n] has
    passed. *)
Definition mapOk {V : Type} (idOf : V -> Z) (n : Z) (m : JsMap.t V) : Prop :=
  StronglySorted Z.lt (map fst m) /\
  Forall (fun kv => idOf (snd kv) = fst kv /\ fst kv < n) m.

Definition storageOk (s : MemStorage) : Prop :=
  mapOk User.id (currentUserId s) (users s) /\
  mapOk Wrapper.id (currentWrapperId s) (wrappers s) /\
  mapOk Prompt.id (currentPromptId s) (prompts s) /\
  mapOk Integration.id (currentIntegrationId s) (integrations s) /\
  mapOk Conversation.id (currentConversationId s) (conversations s).


(** The requests that can write a conversation or an array. *)
Definition writesConversations (r : Request) : bool :=
  match r with
  | PostConversation _ _ _ | PostChat _ _ _ => true
  | _ => false
  end.

(** ** Several chat requests in a row *)

(** What one chat request makes of a transcript: the seed and the user
    message are pushed, then the provider's answer when there is one. *)
Definition chatStep
    (sendMessage : string -> Gemini.StartChatParams -> string -> option string)
    (wrapper : Wrapper.t) (turns : list Message.t) (message : string)
    : list Message.t :=
  let sent := turns ++ seed wrapper turns ++ [userMessage message] in
  match sendMessage (modelNameOf wrapper)
          (startChatParamsOf wrapper (map toGemini sent)) message with
  | Some responseText => sent ++ [assistantMessage responseText]
  | None => sent
  end.

(** The chat requests of one client for one wrapper and conversation. *)
Definition chatRequests
    (sendMessage : string -> Gemini.StartChatParams -> string -> option string)
    (now : Time) (wrapperId conversationId : JsVal) (messages : list string)
    : list Request :=
  map (fun message =>
         PostChat sendMessage now (ChatBody.mk wrapperId message conversationId))
    messages.

(** ** The client's cost estimate ([estimateCost]) *)

Module Client.
Record Pricing := mkPricing { prompt : Q; completion : Q }.

(** The own keys of the [costs] object, per 1000 tokens. *)
Definition costs : list (string * Pricing) :=
  [ ("gpt-4o", mkPricing 0.005%Q 0.015%Q);
    ("gpt-4", mkPricing 0.03%Q 0.06%Q);
    ("gpt-3.5-turbo", mkPricing 0.0005%Q 0.0015%Q) ].

(** The keys every object literal inherits from [Object.prototype]:
    [costs[key]] is then a function or an object, which is truthy and has
    neither [prompt] nor [completion]. *)
Definition inheritedKeys : list string :=
  [ "constructor"; "__proto__"; "hasOwnProperty"; "isPrototypeOf";
    "propertyIsEnumerable"; "toString"; "toLocaleString"; "valueOf";
    "__defineGetter__"; "__defineSetter__"; "__lookupGetter__";
    "__lookupSetter__" ].

Fixpoint ownCost (model : string) (table : list (string * Pricing))
    : option Pricing :=
  match table with
  | [] => None
  | (key, pricing) :: table =>
      if String.eqb key model then Some pricing else ownCost model table
  end.

(** [estimateCost(model, usage)]; [None] is NaN. Amounts are kept as exact
    fractions. *)
Definition estimateCost (model : string) (usage : option Usage) : option Q :=
  match usage with
  | None => Some 0%Q
  | Some usage =>
      let modelCosts :=
        match ownCost model costs with
        | Some pricing => Some pricing
        | None =>
            if existsb (String.eqb model) inheritedKeys then None
            else ownCost "gpt-3.5-turbo" costs
        end in
      match modelCosts with
      | None => None
      | Some modelCosts =>
          let promptCost :=
            (inject_Z (prompt_tokens usage) / 1000 * prompt modelCosts)%Q in
          let completionCost :=
            (inject_Z (completion_tokens usage) / 1000
             * completion modelCosts)%Q in
          Some (promptCost + completionCost)%Q
      end
  end.
End Client.

(** * Properties *)

(** ** Maps *)

Section JsMapFacts.
Context {V : Type}.
Implicit Types (m : JsMap.t V) (k : Z) (v : V).

Lemma get_set_eq k v m : JsMap.get k (JsMap.set k v m) = Some v.
Proof.
  induction m as [|[k' v'] m IH]; simpl.
  - now rewrite Z.eqb_refl.
  - destruct (Z.eqb k k') eqn:E; simpl.
    + now rewrite Z.eqb_refl.
    + now rewrite E.
Qed.

Lemma get_set_ne k k' v m :
  k <> k' -> JsMap.get k' (JsMap.set k v m) = JsMap.get k' m.
Proof.
  intros Hne. induction m as [|[k0 v0] m IH]; simpl.
  - destruct (Z.eqb_spec k' k); [congruence | reflexivity].
  - destruct (Z.eqb_spec k k0) as [->|Hk]; simpl.
    + destruct (Z.eqb_spec k' k0); [congruence | reflexivity].
    + destruct (Z.eqb k' k0); [reflexivity | exact IH].
Qed.

Lemma get_remove_eq k m : JsMap.get k (JsMap.remove k m) = None.
Proof.
  unfold JsMap.remove.
  induction m as [|[k' v'] m IH]; simpl; [reflexivity|].
  destruct (Z.eqb k k') eqn:E; simpl; [exact IH | now rewrite E].
Qed.

Lemma get_remove_ne k k' m :
  k <> k' -> JsMap.get k' (JsMap.remove k m) = JsMap.get k' m.
Proof.
  intros Hne. unfold JsMap.remove.
  induction m as [|[k0 v0] m IH]; simpl; [reflexivity|].
  destruct (Z.eqb_spec k k0) as [->|Hk]; simpl.
  - destruct (Z.eqb_spec k' k0); [congruence | exact IH].
  - destruct (Z.eqb k' k0); [reflexivity | exact IH].
Qed.

Lemma get_In_values k v m : JsMap.get k m = Some v -> In v (JsMap.values m).
Proof.
  unfold JsMap.values.
  induction m as [|[k' v'] m IH]; simpl; [discriminate|].
  destruct (Z.eqb k k'); intros H.
  - left. congruence.
  - right. auto.
Qed.
End JsMapFacts.

(** ** The heap *)

Lemma read_alloc_old (h : Heap) a (l : loc) :
  (l < length h)%nat -> read (h ++ [a]) l = read h l.
Proof. intros Hl. unfold read. now rewrite lookup_app_l. Qed.

Lemma read_alloc_new (h : Heap) a : read (h ++ [a]) (length h) = a.
Proof. unfold read. now rewrite list_lookup_middle. Qed.

Lemma length_push l m (h : Heap) : length (push l m h) = length h.
Proof. unfold push. apply length_insert. Qed.

Lemma read_push_eq l m (h : Heap) :
  (l < length h)%nat -> read (push l m h) l = read h l ++ [m].
Proof. intros Hl. unfold push, read at 1. now rewrite list_lookup_insert_eq. Qed.

Lemma read_push_ne l l' m (h : Heap) :
  l <> l' -> read (push l m h) l' = read h l'.
Proof. intros Hne. unfold push, read at 1. now rewrite list_lookup_insert_ne. Qed.

Lemma assemble_target wrapper message conversation h :
  fst (assemble wrapper message conversation h) = target conversation h.
Proof. unfold assemble, alloc; simpl. now destruct conversation. Qed.

Lemma assemble_length wrapper message conversation h :
  length (snd (assemble wrapper message conversation h)) = S (length h).
Proof.
  unfold assemble, alloc; simpl.
  rewrite length_push.
  destruct (_ && _); [rewrite length_push|]; rewrite length_app; simpl; lia.
Qed.

(** After the two pushes the array holds what it held, then the seed, then
    the user turn. *)
Lemma assemble_read wrapper message conversation h :
  (target conversation h <= length h)%nat ->
  let l := target conversation h in
  let prior := read (h ++ [[]]) l in
  read (snd (assemble wrapper message conversation h)) l
  = prior ++ seed wrapper prior ++ [userMessage message].
Proof.
  intros Hl l prior.
  assert (Hl1 : (l < length (h ++ [[]]))%nat)
    by (rewrite length_app; simpl; unfold l; lia).
  assert (Ht : (match conversation with
                | Some c => Conversation.messages c
                | None => length h
                end) = l) by reflexivity.
  unfold assemble, alloc; simpl. rewrite Ht.
  unfold seed. fold prior.
  destruct (truthyOptString (Wrapper.systemPrompt wrapper)
            && (length prior =? 0)%nat).
  - rewrite read_push_eq by (now rewrite length_push).
    rewrite read_push_eq by assumption.
    fold prior. now rewrite <- app_assoc.
  - now rewrite read_push_eq by assumption.
Qed.

(** No other array is touched. *)
Lemma assemble_frame wrapper message conversation h l' :
  (l' < length h)%nat -> l' <> target conversation h ->
  read (snd (assemble wrapper message conversation h)) l' = read h l'.
Proof.
  intros Hl' Hne.
  assert (Ht : (match conversation with
                | Some c => Conversation.messages c
                | None => length h
                end) = target conversation h) by reflexivity.
  unfold assemble, alloc; simpl. rewrite Ht.
  rewrite read_push_ne by congruence.
  destruct (_ && _).
  - rewrite read_push_ne by congruence. now apply read_alloc_old.
  - now apply read_alloc_old.
Qed.

Lemma last_map_snoc {A B} (f : A -> B) (xs : list A) (x : A) :
  last (map f (xs ++ [x])) = Some (f x).
Proof. rewrite map_app. simpl. apply last_snoc. Qed.

(** ** The chat handler, case by case *)

Section ChatFacts.
Variable sendMessage :
  string -> Gemini.StartChatParams -> string -> option string.
Variables (now : Time) (body : ChatBody.t) (w : World).
Variables (wid : Z) (wrapper : Wrapper.t).

Let message := ChatBody.message body.
Let conversation :=
  loadConversation (ChatBody.conversationId body) (storage w).
Let l := target conversation (heap w).
Let prior := read (heap w ++ [[]]) l.
Let turns := prior ++ seed wrapper prior ++ [userMessage message].
Let h1 := snd (assemble wrapper message conversation (heap w)).

Hypothesis Hwrapper : truthy (ChatBody.wrapperId body) = true.
Hypothesis Hmessage : truthyString (ChatBody.message body) = true.
Hypothesis Hwid : parseInt (ChatBody.wrapperId body) = Some wid.
Hypothesis Hget : getWrapper wid (storage w) = Some wrapper.
Hypothesis Hl : (l <= length (heap w))%nat.

(** Once the wrapper is found, the outcome is decided by the provider
    alone, which is sent the turns assembled so far. *)
Lemma postChatRoute_found :
  postChatRoute sendMessage now body w =
  match sendMessage (modelNameOf wrapper)
          (startChatParamsOf wrapper (map toGemini turns)) message with
  | None =>
      (mkResponse 500 (JsonError "Error communicating with AI model"),
       mkWorld (storage w) h1)
  | Some responseText =>
      let cs := persist now wid l conversation (storage w) in
      (mkResponse 200
         (JsonChat
            (ChatResponse.mk responseText (Conversation.id (fst cs))
               (estimatedUsage message responseText) (modelNameOf wrapper))),
       mkWorld (snd cs) (push l (assistantMessage responseText) h1))
  end.
Proof using All.
  unfold postChatRoute.
  rewrite Hwrapper, Hmessage, Hwid, Hget.
  cbv beta iota zeta delta [negb orb].
  fold message conversation.
  rewrite (surjective_pairing (assemble wrapper message conversation (heap w))).
  rewrite assemble_target. fold l h1.
  rewrite (assemble_read wrapper message conversation (heap w) Hl : read h1 l = turns).
  unfold turns at 1. rewrite (app_assoc prior), last_map_snoc.
  cbn [toGemini userMessage Message.role Message.content String.eqb Ascii.eqb
       Bool.eqb Gemini.parts Gemini.text].
  destruct (sendMessage _ _ _); [|reflexivity].
  destruct (persist now wid l conversation (storage w)); reflexivity.
Qed.
End ChatFacts.

(** ** The invariant of the store *)

Lemma loadConversation_get conversationId s c :
  loadConversation conversationId s = Some c ->
  exists id, parseInt conversationId = Some id /\ getConversation id s = Some c.
Proof.
  unfold loadConversation.
  destruct (truthy conversationId); [|discriminate].
  destruct (parseInt conversationId) as [id|]; [|discriminate].
  intros H. now exists id.
Qed.

Lemma target_le w conversationId :
  storeOk w ->
  (target (loadConversation conversationId (storage w)) (heap w)
   <= length (heap w))%nat.
Proof.
  intros Hok.
  destruct (loadConversation conversationId (storage w)) as [c|] eqn:E; simpl.
  - apply loadConversation_get in E as (id & _ & Hc).
    apply Hok in Hc. lia.
  - lia.
Qed.

Lemma storeOk_heap w h :
  storeOk w -> (length (heap w) <= length h)%nat -> storeOk (mkWorld (storage w) h).
Proof.
  intros Hok Hlen id c Hc. destruct (Hok id c Hc) as (? & ? & ?). simpl.
  repeat split; [assumption | lia | assumption].
Qed.

Lemma getConversation_create now ins s id :
  getConversation id (snd (createConversation now ins s)) =
  if Z.eqb (currentConversationId s) id
  then Some (fst (createConversation now ins s))
  else getConversation id s.
Proof.
  unfold getConversation, createConversation; simpl.
  destruct (Z.eqb_spec (currentConversationId s) id) as [->|Hne].
  - apply get_set_eq.
  - now apply get_set_ne.
Qed.

Lemma getConversation_update id upd s c id' :
  getConversation id s = Some c ->
  getConversation id' (snd (updateConversation id upd s)) =
  if Z.eqb id id' then Some (mergeConversation c upd) else getConversation id' s.
Proof.
  unfold getConversation, updateConversation. intros ->; simpl.
  destruct (Z.eqb_spec id id') as [->|Hne].
  - apply get_set_eq.
  - now apply get_set_ne.
Qed.

(** Writing back the array a conversation already holds changes nothing
    that [getConversation] can see. *)
Lemma getConversation_writeback s c id' :
  getConversation (Conversation.id c) s = Some c ->
  getConversation id'
    (snd (updateConversation (Conversation.id c)
            (PartialConversation.mk None (Some (Conversation.messages c))) s))
  = getConversation id' s.
Proof.
  intros Hc. rewrite (getConversation_update _ _ _ _ _ Hc).
  destruct (Z.eqb_spec (Conversation.id c) id') as [<-|]; [|reflexivity].
  rewrite Hc. now destruct c.
Qed.

Lemma storeOk_initial now : storeOk (initialWorld now).
Proof. intros id c. unfold getConversation; simpl. discriminate. Qed.

Lemma storeOk_postConversation now wrapperId body w :
  storeOk w -> storeOk (snd (postConversationRoute now wrapperId body w)).
Proof.
  intros Hok. unfold postConversationRoute.
  destruct (parseIntString wrapperId) as [wid|]; [|exact Hok].
  destruct (getWrapper wid (storage w)); [|exact Hok].
  destruct (ConversationBody.messages body) as [messages|]; [|exact Hok].
  unfold alloc.
  destruct (createConversation now _ (storage w)) as [c s] eqn:E.
  intros id c' Hc'. simpl in Hc'.
  assert (Hs : s = snd (createConversation now
                         (InsertConversation.mk wid (length (heap w))) (storage w)))
    by now rewrite E.
  rewrite Hs, getConversation_create in Hc'. clear E. subst s.
  simpl. rewrite length_app. simpl.
  destruct (Z.eqb_spec (currentConversationId (storage w)) id) as [<-|].
  - injection Hc' as <-. simpl. repeat split; [lia | lia].
  - destruct (Hok id c' Hc') as (? & ? & ?). repeat split; [assumption | lia | lia].
Qed.

Lemma storeOk_postChat sendMessage now body w :
  storeOk w -> storeOk (snd (postChatRoute sendMessage now body w)).
Proof.
  intros Hok.
  destruct (negb (truthy (ChatBody.wrapperId body))
            || negb (truthyString (ChatBody.message body))) eqn:Hreq.
  { unfold postChatRoute. now rewrite Hreq. }
  apply orb_false_elim in Hreq as [Hw Hm].
  apply negb_false_iff in Hw, Hm.
  destruct (parseInt (ChatBody.wrapperId body)) as [wid|] eqn:Hwid.
  2:{ unfold postChatRoute. now rewrite Hw, Hm, Hwid. }
  destruct (getWrapper wid (storage w)) as [wrapper|] eqn:Hget.
  2:{ unfold postChatRoute. now rewrite Hw, Hm, Hwid, Hget. }
  rewrite (postChatRoute_found sendMessage now body w wid wrapper
             Hw Hm Hwid Hget (target_le w _ Hok)).
  pose proof (assemble_length wrapper (ChatBody.message body)
                (loadConversation (ChatBody.conversationId body) (storage w))
                (heap w)) as Hlen.
  destruct (sendMessage _ _ _) as [responseText|]; cbv zeta; cbn [snd].
  - intros id c Hc. cbn [storage heap] in *. rewrite length_push, Hlen.
    destruct (loadConversation (ChatBody.conversationId body) (storage w))
      as [c0|] eqn:Hload; cbn [persist snd target] in Hc |- *.
    + apply loadConversation_get in Hload as (id0 & _ & Hc0).
      destruct (Hok _ _ Hc0) as [Hid0 _]. rewrite <- Hid0 in Hc0.
      rewrite getConversation_writeback in Hc by assumption.
      destruct (Hok id c Hc) as (? & ? & ?).
      unfold updateConversation. unfold getConversation in Hc0. rewrite Hc0.
      simpl. repeat split; [assumption | lia | lia].
    + rewrite getConversation_create in Hc.
      destruct (Z.eqb_spec (currentConversationId (storage w)) id) as [<-|].
      * injection Hc as <-. simpl. repeat split; [lia | lia].
      * destruct (Hok id c Hc) as (? & ? & ?). simpl.
        repeat split; [assumption | lia | lia].
  - apply storeOk_heap; [assumption | rewrite Hlen; simpl; lia].
Qed.

(** ** The invariant holds in every reachable world *)

Lemma reachable_serve rs w : reachable w -> reachable (serve rs w).
Proof.
  revert w. induction rs as [|r rs IH]; intros w Hw; simpl; [assumption|].
  apply IH. now constructor.
Qed.

Lemma storeOk_same w w' :
  conversations (storage w') = conversations (storage w) ->
  currentConversationId (storage w') = currentConversationId (storage w) ->
  heap w' = heap w -> storeOk w -> storeOk w'.
Proof.
  intros Hc Hn Hh Hok id c. unfold getConversation. rewrite Hc, Hn, Hh. apply Hok.
Qed.

Lemma storeOk_handle r w : storeOk w -> storeOk (snd (handle r w)).
Proof.
  intros Hok.
  destruct r; simpl;
    try (now apply storeOk_postConversation);
    try (now apply storeOk_postChat);
    (eapply storeOk_same; [| | |exact Hok]).
  all: unfold getWrappersRoute, getWrapperRoute, postWrapperRoute,
         putWrapperRoute, deleteWrapperRoute, getPromptsRoute, postPromptRoute,
         getIntegrationsRoute, postIntegrationRoute, getConversationsRoute,
         insertWrapperSchema_partial_parse, updateWrapper, deleteWrapper,
         createWrapper, createPrompt, createIntegration, JsMap.delete,
         getWrapper;
       repeat (cbn [fst snd storage heap];
               match goal with
               | |- context [JsMap.get ?k ?m] => destruct (JsMap.get k m)
               | |- context [JsMap.has ?k ?m] => destruct (JsMap.has k m)
               | |- context [match ?x with _ => _ end] => destruct x
               end); reflexivity.
Qed.

Theorem reachable_storeOk w : reachable w -> storeOk w.
Proof.
  induction 1 as [now|r w _ IH].
  - apply storeOk_initial.
  - now apply storeOk_handle.
Qed.

(** ** Chat: what is persisted *)

Lemma transcript_get id w c :
  getConversation id (storage w) = Some c ->
  transcript id w = Some (read (heap w) (Conversation.messages c)).
Proof. unfold transcript. now intros ->. Qed.

Lemma transcript_inv id w turns :
  transcript id w = Some turns ->
  exists c, getConversation id (storage w) = Some c /\
            turns = read (heap w) (Conversation.messages c).
Proof.
  unfold transcript. destruct (getConversation id (storage w)) as [c|]; [|discriminate].
  intros [= <-]. now exists c.
Qed.

Lemma loadConversation_falsy conversationId s :
  truthy conversationId = false -> loadConversation conversationId s = None.
Proof. unfold loadConversation. now intros ->. Qed.

Lemma loadConversation_resolves conversationId s cid c :
  truthy conversationId = true -> parseInt conversationId = Some cid ->
  getConversation cid s = Some c -> loadConversation conversationId s = Some c.
Proof. unfold loadConversation. now intros -> ->. Qed.

Section ChatPersistence.
Variable sendMessage :
  string -> Gemini.StartChatParams -> string -> option string.
Variables (now : Time) (body : ChatBody.t) (w : World).
Variables (wid : Z) (wrapper : Wrapper.t).

Hypothesis Hwrapper : truthy (ChatBody.wrapperId body) = true.
Hypothesis Hmessage : truthyString (ChatBody.message body) = true.
Hypothesis Hwid : parseInt (ChatBody.wrapperId body) = Some wid.
Hypothesis Hget : getWrapper wid (storage w) = Some wrapper.

(** A request that names an existing conversation, answered by the
    provider. *)
Lemma chat_continue cid c responseText :
  storeOk w ->
  truthy (ChatBody.conversationId body) = true ->
  parseInt (ChatBody.conversationId body) = Some cid ->
  getConversation cid (storage w) = Some c ->
  let prior := read (heap w) (Conversation.messages c) in
  let turns := prior ++ seed wrapper prior ++ [userMessage (ChatBody.message body)] in
  sendMessage (modelNameOf wrapper)
    (startChatParamsOf wrapper (map toGemini turns)) (ChatBody.message body)
  = Some responseText ->
  exists w',
    postChatRoute sendMessage now body w =
    (mkResponse 200
       (JsonChat
          (ChatResponse.mk responseText cid
             (estimatedUsage (ChatBody.message body) responseText)
             (modelNameOf wrapper))), w') /\
    getConversation cid (storage w') = Some c /\
    read (heap w') (Conversation.messages c)
    = turns ++ [assistantMessage responseText].
Proof using All.
  intros Hok Hconv Hcid Hc prior turns Hsend.
  destruct (Hok cid c Hc) as (Hid & Hlt & _).
  pose proof (loadConversation_resolves _ _ _ _ Hconv Hcid Hc) as Hload.
  pose proof (postChatRoute_found sendMessage now body w wid wrapper
                Hwrapper Hmessage Hwid Hget) as Hfound.
  pose proof (assemble_read wrapper (ChatBody.message body)
                (loadConversation (ChatBody.conversationId body) (storage w))
                (heap w)) as Hread.
  pose proof (assemble_length wrapper (ChatBody.message body)
                (loadConversation (ChatBody.conversationId body) (storage w))
                (heap w)) as Hlen.
  rewrite Hload in Hfound, Hread, Hlen. cbn [target] in Hfound, Hread.
  cbv zeta in Hfound, Hread.
  rewrite read_alloc_old in Hfound, Hread by assumption.
  fold prior in Hfound, Hread. fold turns in Hfound, Hread.
  specialize (Hfound ltac:(lia)). specialize (Hread ltac:(lia)).
  rewrite Hsend in Hfound. cbn [persist fst snd] in Hfound. rewrite Hid in Hfound.
  eexists. split; [exact Hfound|]. cbn [storage heap]. split.
  - rewrite <- Hid in Hc |- *. rewrite getConversation_writeback; assumption.
  - rewrite read_push_eq by lia. now rewrite Hread.
Qed.

(** A request that names no conversation, answered by the provider. *)
Lemma chat_fresh responseText :
  truthy (ChatBody.conversationId body) = false ->
  let turns := seed wrapper [] ++ [userMessage (ChatBody.message body)] in
  sendMessage (modelNameOf wrapper)
    (startChatParamsOf wrapper (map toGemini turns)) (ChatBody.message body)
  = Some responseText ->
  let cid := currentConversationId (storage w) in
  let c := Conversation.mk cid wid (length (heap w)) now in
  exists w',
    postChatRoute sendMessage now body w =
    (mkResponse 200
       (JsonChat
          (ChatResponse.mk responseText cid
             (estimatedUsage (ChatBody.message body) responseText)
             (modelNameOf wrapper))), w') /\
    getConversation cid (storage w') = Some c /\
    read (heap w') (Conversation.messages c)
    = turns ++ [assistantMessage responseText].
Proof using All.
  intros Hconv turns Hsend cid c.
  pose proof (loadConversation_falsy _ (storage w) Hconv) as Hload.
  pose proof (postChatRoute_found sendMessage now body w wid wrapper
                Hwrapper Hmessage Hwid Hget) as Hfound.
  pose proof (assemble_read wrapper (ChatBody.message body)
                (loadConversation (ChatBody.conversationId body) (storage w))
                (heap w)) as Hread.
  pose proof (assemble_length wrapper (ChatBody.message body)
                (loadConversation (ChatBody.conversationId body) (storage w))
                (heap w)) as Hlen.
  rewrite Hload in Hfound, Hread, Hlen. cbn [target] in Hfound, Hread.
  cbv zeta in Hfound, Hread.
  rewrite read_alloc_new in Hfound, Hread.
  rewrite app_nil_l in Hfound, Hread. fold turns in Hfound, Hread.
  specialize (Hfound ltac:(lia)). specialize (Hread ltac:(lia)).
  rewrite Hsend in Hfound. cbn [persist] in Hfound.
  eexists. split; [exact Hfound|]. cbn [storage heap]. split.
  - rewrite getConversation_create. fold cid. now rewrite Z.eqb_refl.
  - cbn [Conversation.messages c]. rewrite read_push_eq by lia. now rewrite Hread.
Qed.
End ChatPersistence.

(** Whatever the outcome of a chat request, every transcript of the store
    is still there afterwards and has at most grown at its end. *)
Lemma chat_append_only sendMessage now body w :
  storeOk w ->
  forall id turns,
    transcript id w = Some turns ->
    exists added,
      transcript id (snd (postChatRoute sendMessage now body w))
      = Some (turns ++ added).
Proof.
  intros Hok id turns Hturns.
  assert (Hsame : exists added, transcript id w = Some (turns ++ added))
    by (exists []; now rewrite app_nil_r).
  destruct (negb (truthy (ChatBody.wrapperId body))
            || negb (truthyString (ChatBody.message body))) eqn:Hreq.
  { unfold postChatRoute. now rewrite Hreq. }
  apply orb_false_elim in Hreq as [Hw Hm].
  apply negb_false_iff in Hw, Hm.
  destruct (parseInt (ChatBody.wrapperId body)) as [wid|] eqn:Hwid.
  2:{ unfold postChatRoute. now rewrite Hw, Hm, Hwid. }
  destruct (getWrapper wid (storage w)) as [wrapper|] eqn:Hget.
  2:{ unfold postChatRoute. now rewrite Hw, Hm, Hwid, Hget. }
  clear Hsame.
  apply transcript_inv in Hturns as (c & Hc & ->).
  destruct (Hok id c Hc) as (Hid & Hlt & Hcount).
  pose proof (target_le w (ChatBody.conversationId body) Hok) as Hl.
  rewrite (postChatRoute_found sendMessage now body w wid wrapper
             Hw Hm Hwid Hget Hl).
  pose proof (assemble_read wrapper (ChatBody.message body) _ _ Hl) as Hread.
  pose proof (assemble_frame wrapper (ChatBody.message body)
                (loadConversation (ChatBody.conversationId body) (storage w))
                (heap w) (Conversation.messages c) Hlt) as Hframe.
  pose proof (assemble_length wrapper (ChatBody.message body)
                (loadConversation (ChatBody.conversationId body) (storage w))
                (heap w)) as Hlen.
  cbv zeta in Hread.
  set (conversation := loadConversation (ChatBody.conversationId body) (storage w)) in *.
  set (l := target conversation (heap w)) in *.
  set (h1 := snd (assemble wrapper (ChatBody.message body) conversation (heap w))) in *.
  assert (Hkept : getConversation id (snd (persist now wid l conversation (storage w)))
                  = Some c).
  { subst l. destruct conversation as [c0|] eqn:Hload; cbn [persist target snd].
    - apply loadConversation_get in Hload as (id0 & _ & Hc0).
      destruct (Hok _ _ Hc0) as [Hid0 _]. rewrite <- Hid0 in Hc0.
      now rewrite getConversation_writeback.
    - rewrite getConversation_create.
      destruct (Z.eqb_spec (currentConversationId (storage w)) id); [lia | assumption]. }
  destruct (Nat.eq_dec (Conversation.messages c) l) as [Heq|Hne].
  - (* the array the handler works on *)
    assert (Hprior : read (heap w ++ [[]]) l = read (heap w) l)
      by (apply read_alloc_old; lia).
    rewrite Hprior in Hread. rewrite Heq in *.
    destruct (sendMessage _ _ _) as [responseText|]; cbv zeta; cbn [snd].
    + eexists. rewrite (transcript_get id _ c) by exact Hkept.
      cbn [heap]. rewrite Heq, read_push_eq by lia. rewrite Hread.
      now rewrite <- app_assoc.
    + eexists. rewrite (transcript_get id _ c) by exact Hc.
      cbn [heap]. rewrite Heq, Hread. reflexivity.
  - specialize (Hframe Hne).
    exists []. rewrite app_nil_r.
    destruct (sendMessage _ _ _) as [responseText|]; cbv zeta; cbn [snd].
    + rewrite (transcript_get id _ c) by exact Hkept.
      cbn [heap]. rewrite read_push_ne by congruence. now rewrite Hframe.
    + rewrite (transcript_get id _ c) by exact Hc.
      cbn [heap]. now rewrite Hframe.
Qed.

(** ** C1: a failed model call *)


(** C1 (the code departs from the claim). Conversation 1 holds the system
    prompt, "hello" and its answer. The client sends "again" in
    conversation 1 and the provider fails: the response is 500, no record
    is created and no counter moves, yet the transcript of conversation 1
    has gained the user message "again": the handler pushed it onto the
    very array the stored record holds, before calling the provider. *)
Theorem chat_failure_leaves_user_turn :
  let w := afterHello in
  let rw := postChatRoute failingProvider 2 againBody w in
  reachable w /\
  fst rw = mkResponse 500 (JsonError "Error communicating with AI model") /\
  storage (snd rw) = storage w /\
  transcript 1 w =
    Some [systemMessage demoSystemPrompt; userMessage "hello";
          assistantMessage "re: hello"] /\
  transcript 1 (snd rw) =
    Some [systemMessage demoSystemPrompt; userMessage "hello";
          assistantMessage "re: hello"; userMessage "again"].
Proof.
  cbv zeta. split.
  - apply reachable_serve, reachable_initial.
  - repeat split; reflexivity.
Qed.

(** ** C2: a chat that opens a conversation *)

(** C2. A request with no [conversationId] (absent, or any falsy value)
    that the provider answers: the response is 200 and the conversation it
    names holds exactly the system prompt (when the wrapper has a non-empty
    one), the user message and the assistant's answer. *)
Theorem chat_new_conversation_transcript
    sendMessage now body w wid wrapper responseText :
  truthy (ChatBody.conversationId body) = false ->
  truthy (ChatBody.wrapperId body) = true ->
  truthyString (ChatBody.message body) = true ->
  parseInt (ChatBody.wrapperId body) = Some wid ->
  getWrapper wid (storage w) = Some wrapper ->
  let opening :=
    match Wrapper.systemPrompt wrapper with
    | Some systemPrompt =>
        if String.eqb systemPrompt "" then [] else [systemMessage systemPrompt]
    | None => []
    end in
  sendMessage (modelNameOf wrapper)
    (startChatParamsOf wrapper
       (map toGemini (opening ++ [userMessage (ChatBody.message body)])))
    (ChatBody.message body)
  = Some responseText ->
  exists r w',
    postChatRoute sendMessage now body w = (mkResponse 200 (JsonChat r), w') /\
    ChatResponse.message r = responseText /\
    transcript (ChatResponse.conversationId r) w' =
      Some (opening ++ [userMessage (ChatBody.message body);
                        assistantMessage responseText]).
Proof.
  intros Hconv Hwrapper Hmessage Hwid Hget opening Hsend.
  assert (Hseed : seed wrapper [] = opening).
  { unfold seed, opening, truthyOptString, truthyString.
    destruct (Wrapper.systemPrompt wrapper) as [p|]; [|reflexivity].
    simpl. now destruct (String.eqb p ""). }
  destruct (chat_fresh sendMessage now body w wid wrapper
              Hwrapper Hmessage Hwid Hget responseText Hconv)
    as (w' & Hpost & Hc & Hread).
  { now rewrite Hseed. }
  eexists _, w'. split; [exact Hpost|]. split; [reflexivity|].
  cbn [ChatResponse.conversationId].
  rewrite (transcript_get _ _ _ Hc), Hread, Hseed.
  now rewrite <- app_assoc.
Qed.

Lemma chat_new_conversation_transcript_witness :
  exists r w',
    postChatRoute echoProvider 1 helloBody (initialWorld 0)
    = (mkResponse 200 (JsonChat r), w') /\
    ChatResponse.message r = "re: hello" /\
    transcript (ChatResponse.conversationId r) w' =
      Some ([systemMessage demoSystemPrompt]
            ++ [userMessage "hello"; assistantMessage "re: hello"]).
Proof.
  apply (chat_new_conversation_transcript echoProvider 1 helloBody
           (initialWorld 0) 1 demoWrapper "re: hello"); reflexivity.
Defined.

(** ** C3: a chat that continues a conversation *)

(** C3, counterexample. Conversation 1 exists and is empty; the demo
    wrapper has a system prompt. A chat in conversation 1 appends three
    messages, the system message first, not two. *)
Lemma chat_continue_empty_conversation_seeded :
  let w := emptyConversation in
  let w' := snd (postChatRoute echoProvider 2 againBody w) in
  reachable w /\
  transcript 1 w = Some [] /\
  transcript 1 w' <>
    Some ([] ++ [userMessage "again"; assistantMessage "re: again"]) /\
  transcript 1 w' =
    Some [systemMessage demoSystemPrompt; userMessage "again";
          assistantMessage "re: again"].
Proof.
  cbv zeta. split; [apply reachable_serve, reachable_initial|].
  split; [reflexivity|]. split; [vm_compute; discriminate | reflexivity].
Qed.

(** C3, amended. A request whose [conversationId] resolves to an existing
    conversation and that the provider answers: the transcript afterwards
    is the prior transcript followed by the user message and the
    assistant's answer, with the wrapper's system message in between
    exactly when the prior transcript is empty and the wrapper has a
    non-empty system prompt. The record keeps its id, wrapper and date,
    and every transcript of the store, this one included, is its former
    self with messages added at the end at most. *)
Theorem chat_continue_appends_turns
    sendMessage now body w wid wrapper cid c responseText :
  storeOk w ->
  truthy (ChatBody.wrapperId body) = true ->
  truthyString (ChatBody.message body) = true ->
  parseInt (ChatBody.wrapperId body) = Some wid ->
  getWrapper wid (storage w) = Some wrapper ->
  truthy (ChatBody.conversationId body) = true ->
  parseInt (ChatBody.conversationId body) = Some cid ->
  getConversation cid (storage w) = Some c ->
  let prior := read (heap w) (Conversation.messages c) in
  let user := userMessage (ChatBody.message body) in
  sendMessage (modelNameOf wrapper)
    (startChatParamsOf wrapper (map toGemini (prior ++ seed wrapper prior ++ [user])))
    (ChatBody.message body)
  = Some responseText ->
  let assistant := assistantMessage responseText in
  let w' := snd (postChatRoute sendMessage now body w) in
  transcript cid w = Some prior /\
  transcript cid w' = Some (prior ++ seed wrapper prior ++ [user; assistant]) /\
  (prior <> [] \/ truthyOptString (Wrapper.systemPrompt wrapper) = false ->
   transcript cid w' = Some (prior ++ [user; assistant])) /\
  getConversation cid (storage w') = Some c /\
  (forall id turns,
      transcript id w = Some turns ->
      exists added, transcript id w' = Some (turns ++ added)).
Proof.
  intros Hok Hwrapper Hmessage Hwid Hget Hconv Hcid Hc prior user Hsend
         assistant w'.
  destruct (chat_continue sendMessage now body w wid wrapper
              Hwrapper Hmessage Hwid Hget cid c responseText
              Hok Hconv Hcid Hc Hsend)
    as (w1 & Hpost & Hc' & Hread).
  assert (Hw' : w' = w1) by (unfold w'; now rewrite Hpost).
  assert (Hafter : transcript cid w'
                   = Some (prior ++ seed wrapper prior ++ [user; assistant])).
  { rewrite Hw', (transcript_get _ _ _ Hc'), Hread.
    fold prior user assistant. now rewrite <- !app_assoc. }
  split; [exact (transcript_get _ _ _ Hc)|].
  split; [exact Hafter|].
  split; [|split].
  - intros Hcase. rewrite Hafter. unfold seed.
    destruct Hcase as [Hne| ->]; [|reflexivity].
    destruct prior; [congruence|]. simpl. now rewrite andb_false_r.
  - now rewrite Hw'.
  - apply chat_append_only, Hok.
Qed.

Lemma chat_continue_appends_turns_witness :
  let w' := snd (postChatRoute echoProvider 2 againBody afterHello) in
  transcript 1 w' =
    Some ([systemMessage demoSystemPrompt; userMessage "hello";
           assistantMessage "re: hello"]
          ++ [userMessage "again"; assistantMessage "re: again"]).
Proof.
  refine (let H :=
            chat_continue_appends_turns echoProvider 2 againBody afterHello
              1 demoWrapper 1 (Conversation.mk 1 1 0 1) "re: again"
              (reachable_storeOk _
                 (reachable_serve _ _ (reachable_initial 0)))
              eq_refl eq_refl eq_refl eq_refl eq_refl eq_refl eq_refl eq_refl
          in _).
  destruct H as (_ & _ & H & _).
  apply H. left. discriminate.
Defined.

(** ** C10: a conversation of another wrapper *)

(** C10. The conversation a request names is used whatever wrapper it
    belongs to: when it belongs to another wrapper than the one of the
    request, its messages are still the history sent to the provider, and
    on an answer the two new turns are persisted in that conversation,
    which stays the other wrapper's. *)
Theorem chat_uses_conversation_of_other_wrapper
    sendMessage now body w wid wrapper cid c responseText :
  storeOk w ->
  truthy (ChatBody.wrapperId body) = true ->
  truthyString (ChatBody.message body) = true ->
  parseInt (ChatBody.wrapperId body) = Some wid ->
  getWrapper wid (storage w) = Some wrapper ->
  truthy (ChatBody.conversationId body) = true ->
  parseInt (ChatBody.conversationId body) = Some cid ->
  getConversation cid (storage w) = Some c ->
  Conversation.wrapperId c <> wid ->
  let prior := read (heap w) (Conversation.messages c) in
  let user := userMessage (ChatBody.message body) in
  sendMessage (modelNameOf wrapper)
    (startChatParamsOf wrapper (map toGemini (prior ++ seed wrapper prior ++ [user])))
    (ChatBody.message body)
  = Some responseText ->
  exists r w',
    postChatRoute sendMessage now body w = (mkResponse 200 (JsonChat r), w') /\
    ChatResponse.conversationId r = cid /\
    ChatResponse.message r = responseText /\
    (exists c',
        getConversation cid (storage w') = Some c' /\
        Conversation.wrapperId c' = Conversation.wrapperId c /\
        Conversation.wrapperId c' <> wid) /\
    transcript cid w' =
      Some (prior ++ seed wrapper prior
            ++ [user; assistantMessage responseText]) /\
    currentConversationId (storage w') = currentConversationId (storage w).
Proof.
  intros Hok Hwrapper Hmessage Hwid Hget Hconv Hcid Hc Hother prior user Hsend.
  pose proof (loadConversation_resolves _ _ _ _ Hconv Hcid Hc) as Hload.
  destruct (chat_continue sendMessage now body w wid wrapper
              Hwrapper Hmessage Hwid Hget cid c responseText
              Hok Hconv Hcid Hc Hsend)
    as (w1 & Hpost & Hc' & Hread).
  eexists _, w1. split; [exact Hpost|].
  split; [reflexivity|]. split; [reflexivity|].
  split; [exists c; now repeat split|]. split.
  - rewrite (transcript_get _ _ _ Hc'), Hread.
    fold prior user. now rewrite <- !app_assoc.
  - pose proof (postChatRoute_found sendMessage now body w wid wrapper
                  Hwrapper Hmessage Hwid Hget (target_le w _ Hok)) as Hfound.
    cbv zeta in Hfound. rewrite Hload in Hfound. cbn [target] in Hfound.
    destruct (Hok cid c Hc) as (_ & Hlt & _).
    rewrite read_alloc_old in Hfound by assumption.
    fold prior user in Hfound. rewrite Hsend in Hfound.
    rewrite Hpost in Hfound. injection Hfound as _ ->.
    cbn [storage persist snd]. unfold updateConversation.
    destruct (JsMap.get _ _); reflexivity.
Qed.

Lemma chat_uses_conversation_of_other_wrapper_witness :
  exists r w',
    postChatRoute echoProvider 3 crossBody twoWrappers
    = (mkResponse 200 (JsonChat r), w') /\
    ChatResponse.conversationId r = 1 /\
    ChatResponse.message r = "re: mine?" /\
    (exists c',
        getConversation 1 (storage w') = Some c' /\
        Conversation.wrapperId c' = 1 /\
        Conversation.wrapperId c' <> 2) /\
    transcript 1 w' =
      Some ([systemMessage demoSystemPrompt; userMessage "hello";
             assistantMessage "re: hello"]
            ++ []
            ++ [userMessage "mine?"; assistantMessage "re: mine?"]) /\
    currentConversationId (storage w') = 2.
Proof.
  apply (chat_uses_conversation_of_other_wrapper echoProvider 3 crossBody
           twoWrappers 2 otherWrapper 1 (Conversation.mk 1 1 0 1) "re: mine?");
    try reflexivity.
  - apply reachable_storeOk, reachable_serve, reachable_initial.
  - discriminate.
Defined.

(** ** C4: the usage estimate *)

(** A 200 response carries the provider's text and the estimate made from
    the request's message and that text. *)
Lemma postChatRoute_ok_inv sendMessage now body w r w' :
  postChatRoute sendMessage now body w = (mkResponse 200 (JsonChat r), w') ->
  ChatResponse.usage r
  = estimatedUsage (ChatBody.message body) (ChatResponse.message r).
Proof.
  unfold postChatRoute.
  destruct (_ || _); [discriminate|].
  destruct (parseInt _); [|discriminate].
  destruct (getWrapper _ _); [|discriminate].
  destruct (assemble _ _ _ _) as [l h].
  destruct (last _); [|discriminate].
  destruct (Gemini.parts _); [discriminate|].
  destruct (sendMessage _ _ _); [|discriminate].
  destruct (persist _ _ _ _ _).
  intros [= <- _]. reflexivity.
Qed.

(** C4, counterexample. For the message "hello" answered by "hey" the
    response reports 1 prompt token and 0 completion tokens, where the
    ceilings are 2 and 1, and a total of 2, which is not their sum. *)
Lemma usage_is_not_ceiling_nor_sum :
  let r := fst (postChatRoute (answering "hey") 1 helloBody (initialWorld 0)) in
  exists c,
    r = mkResponse 200 (JsonChat c) /\
    ChatResponse.message c = "hey" /\
    prompt_tokens (ChatResponse.usage c)
      <> ceilQuarter (Z.of_nat (String.length "hello")) /\
    completion_tokens (ChatResponse.usage c)
      <> ceilQuarter (Z.of_nat (String.length "hey")) /\
    total_tokens (ChatResponse.usage c)
      <> prompt_tokens (ChatResponse.usage c)
         + completion_tokens (ChatResponse.usage c).
Proof.
  cbv zeta. eexists. split; [reflexivity|].
  split; [reflexivity|]. repeat split; vm_compute; discriminate.
Qed.

(** C4, amended. In every successful chat response the reported usage is
    the floor of a quarter of the character count, for the message and for
    the response separately, and the total is the floor of a quarter of
    the two counts together: it is the sum of the two parts or one more.
    A message of 12 characters answered by 24 characters gives 3, 6, 9. *)
Theorem chat_usage_is_floor sendMessage now body w r w' :
  postChatRoute sendMessage now body w = (mkResponse 200 (JsonChat r), w') ->
  let p := Z.of_nat (String.length (ChatBody.message body)) in
  let c := Z.of_nat (String.length (ChatResponse.message r)) in
  let u := ChatResponse.usage r in
  (4 * prompt_tokens u <= p < 4 * prompt_tokens u + 4) /\
  (4 * completion_tokens u <= c < 4 * completion_tokens u + 4) /\
  (4 * total_tokens u <= p + c < 4 * total_tokens u + 4) /\
  (prompt_tokens u + completion_tokens u <= total_tokens u
   <= prompt_tokens u + completion_tokens u + 1) /\
  (p = 12 -> c = 24 -> u = mkUsage 3 6 9).
Proof.
  intros Hpost p c u.
  apply postChatRoute_ok_inv in Hpost.
  unfold u. rewrite Hpost. unfold estimatedUsage.
  cbn [prompt_tokens completion_tokens total_tokens]. fold p c.
  assert (Hp : 0 <= p) by apply Nat2Z.is_nonneg.
  assert (Hc : 0 <= c) by apply Nat2Z.is_nonneg.
  pose proof (Z.div_mod p 4 ltac:(lia)) as Hdp.
  pose proof (Z.mod_pos_bound p 4 ltac:(lia)) as Hmp.
  pose proof (Z.div_mod c 4 ltac:(lia)) as Hdc.
  pose proof (Z.mod_pos_bound c 4 ltac:(lia)) as Hmc.
  pose proof (Z.div_mod (p + c) 4 ltac:(lia)) as Hdt.
  pose proof (Z.mod_pos_bound (p + c) 4 ltac:(lia)) as Hmt.
  repeat split; try lia.
  intros -> ->. reflexivity.
Qed.

Lemma chat_usage_is_floor_witness :
  ChatResponse.usage
    (ChatResponse.mk "twenty-four characters.." 1
       (estimatedUsage "twelve chars" "twenty-four characters..") "gemini-pro")
  = mkUsage 3 6 9.
Proof.
  refine (let H :=
            chat_usage_is_floor (answering "twenty-four characters..") 1
              dozenBody (initialWorld 0) _ _ eq_refl in _).
  destruct H as (_ & _ & _ & _ & H).
  apply H; reflexivity.
Defined.

(** ** C5: the sampling settings sent to the provider *)

(** The settings of a wrapper whose stored values are not zero. *)
Lemma generationConfig_nonzero wrapper t p m :
  Wrapper.temperature wrapper = Some t -> t <> 0 ->
  Wrapper.topP wrapper = Some p -> p <> 0 ->
  Wrapper.maxTokens wrapper = Some m -> m <> 0 ->
  Qeq (Gemini.temperature (generationConfigOf wrapper)) (inject_Z t / 100)%Q /\
  Qeq (Gemini.topP (generationConfigOf wrapper)) (inject_Z p / 100)%Q /\
  Gemini.maxOutputTokens (generationConfigOf wrapper) = m.
Proof.
  intros Ht Ht0 Hp Hp0 Hm Hm0.
  unfold generationConfigOf, scaledOr, valueOr. rewrite Ht, Hp, Hm.
  apply Z.eqb_neq in Ht0, Hp0, Hm0. rewrite Ht0, Hp0, Hm0. simpl.
  repeat split; reflexivity.
Qed.

(** The demo wrapper's 70 and 90 become 0.7 and 0.9. *)
Lemma generationConfig_demo :
  Qeq (Gemini.temperature (generationConfigOf demoWrapper)) 0.7%Q /\
  Qeq (Gemini.topP (generationConfigOf demoWrapper)) 0.9%Q /\
  Gemini.maxOutputTokens (generationConfigOf demoWrapper) = 2048.
Proof. repeat split; reflexivity. Qed.

(** C5 (the code departs from the claim). The demo wrapper is updated to
    temperature 0 and topP 0, both in the declared range 0-100. The
    settings built for the provider are then temperature 0.7 and topP 0.9,
    not 0/100: the handler tests the stored value for truthiness before it
    divides, and 0 is falsy. A chat with that wrapper reaches the provider
    with the two defaults. *)
Theorem generationConfig_zero_falls_back :
  exists wrapper,
    reachable zeroSampling /\
    getWrapper 1 (storage zeroSampling) = Some wrapper /\
    Wrapper.temperature wrapper = Some 0 /\
    Wrapper.topP wrapper = Some 0 /\
    Qeq (Gemini.temperature (generationConfigOf wrapper)) 0.7%Q /\
    ~ Qeq (Gemini.temperature (generationConfigOf wrapper)) (inject_Z 0 / 100)%Q /\
    Qeq (Gemini.topP (generationConfigOf wrapper)) 0.9%Q /\
    ~ Qeq (Gemini.topP (generationConfigOf wrapper)) (inject_Z 0 / 100)%Q /\
    status (fst (postChatRoute defaultsOnlyProvider 1 helloBody zeroSampling))
    = 200.
Proof.
  eexists. split; [apply reachable_serve, reachable_initial|].
  split; [reflexivity|].
  repeat split; try reflexivity; vm_compute; discriminate.
Qed.

(** ** C6: a wrapper created from the required fields *)

(** [createWrapper] files the sampling settings and switches of its input
    as they are. *)
Lemma createWrapper_copies now ins s :
  let wrapper := fst (createWrapper now ins s) in
  Wrapper.temperature wrapper = InsertWrapper.temperature ins /\
  Wrapper.maxTokens wrapper = InsertWrapper.maxTokens ins /\
  Wrapper.topP wrapper = InsertWrapper.topP ins /\
  Wrapper.enableMemory wrapper = InsertWrapper.enableMemory ins /\
  Wrapper.knowledgeBaseIntegration wrapper
  = InsertWrapper.knowledgeBaseIntegration ins /\
  Wrapper.webSearchAccess wrapper = InsertWrapper.webSearchAccess ins.
Proof. repeat split. Qed.

(** C6 (the code departs from the claim). A wrapper created from [name]
    and [baseModel] alone (the handler adds [userId]) is answered with 201
    and filed, and the record has no temperature, maxTokens, topP or
    enableMemory at all, where the table declares the defaults 70, 2048, 90
    and true; the two other switches are absent as well. *)
Theorem create_wrapper_required_only_has_no_defaults :
  let rw := postWrapperRoute 1 minimalWrapperBody (initialWorld 0) in
  exists wrapper,
    fst rw = mkResponse 201 (JsonWrapper wrapper) /\
    getWrapper 2 (storage (snd rw)) = Some wrapper /\
    Wrapper.name wrapper = "Minimal" /\
    Wrapper.userId wrapper = Some 1 /\
    Wrapper.temperature wrapper = None /\
    Wrapper.maxTokens wrapper = None /\
    Wrapper.topP wrapper = None /\
    Wrapper.enableMemory wrapper = None /\
    Wrapper.knowledgeBaseIntegration wrapper = None /\
    Wrapper.webSearchAccess wrapper = None.
Proof. cbv zeta. eexists. repeat split. Qed.

(** ** C7: a prompt for a wrapper that does not exist *)

(** C7. [POST /api/wrappers/:wrapperId/prompts] for an id that no wrapper
    has is answered with 404 and leaves the world as it was: no prompt is
    filed and the prompt counter stays. *)
Theorem post_prompt_unknown_wrapper now wrapperId id body w :
  parseIntString wrapperId = Some id ->
  getWrapper id (storage w) = None ->
  let rw := postPromptRoute now wrapperId body w in
  fst rw = mkResponse 404 (JsonError "Wrapper not found") /\
  snd rw = w /\
  prompts (storage (snd rw)) = prompts (storage w) /\
  currentPromptId (storage (snd rw)) = currentPromptId (storage w).
Proof.
  intros Hid Hget. unfold postPromptRoute. rewrite Hid, Hget.
  repeat split.
Qed.

Lemma post_prompt_unknown_wrapper_witness :
  let rw := postPromptRoute 1 "7" somePromptBody (initialWorld 0) in
  fst rw = mkResponse 404 (JsonError "Wrapper not found") /\
  snd rw = initialWorld 0 /\
  prompts (storage (snd rw)) = prompts (storage (initialWorld 0)) /\
  currentPromptId (storage (snd rw)) = currentPromptId (storage (initialWorld 0)).
Proof.
  apply (post_prompt_unknown_wrapper 1 "7" 7 somePromptBody (initialWorld 0));
    reflexivity.
Defined.

(** ** C8: updates merge *)

Lemma spread_suppliedOrKept {A : Type} (old : A) (upd : option A) :
  suppliedOrKept upd old (spread old upd).
Proof. now destruct upd. Qed.

(** C8. For each of the four kinds that can be updated: updating an id
    that is not in the store returns nothing and changes nothing; updating
    an id that is there returns the merged record, files it under the same
    id, and the merged record has the old id and creation date and, field by
    field, the value of the update where the update has the key and the old
    value where it has not. Over HTTP an unknown wrapper id is a 404. *)
Theorem update_merges_supplied_fields (s : MemStorage) (id : Z) :
  (forall upd,
      match getWrapper id s with
      | None => updateWrapper id upd s = (None, s)
      | Some old =>
          exists new,
            fst (updateWrapper id upd s) = Some new /\
            getWrapper id (snd (updateWrapper id upd s)) = Some new /\
            wrapperMerged old upd new
      end) /\
  (forall upd,
      match getPrompt id s with
      | None => updatePrompt id upd s = (None, s)
      | Some old =>
          exists new,
            fst (updatePrompt id upd s) = Some new /\
            getPrompt id (snd (updatePrompt id upd s)) = Some new /\
            promptMerged old upd new
      end) /\
  (forall upd,
      match getIntegration id s with
      | None => updateIntegration id upd s = (None, s)
      | Some old =>
          exists new,
            fst (updateIntegration id upd s) = Some new /\
            getIntegration id (snd (updateIntegration id upd s)) = Some new /\
            integrationMerged old upd new
      end) /\
  (forall upd,
      match getConversation id s with
      | None => updateConversation id upd s = (None, s)
      | Some old =>
          exists new,
            fst (updateConversation id upd s) = Some new /\
            getConversation id (snd (updateConversation id upd s)) = Some new /\
            conversationMerged old upd new
      end) /\
  (forall path body h,
      parseIntString path = Some id ->
      match getWrapper id s with
      | None =>
          putWrapperRoute path body (mkWorld s h)
          = (mkResponse 404 (JsonError "Wrapper not found"), mkWorld s h)
      | Some old =>
          exists new,
            fst (putWrapperRoute path body (mkWorld s h))
            = mkResponse 200 (JsonWrapper new) /\
            getWrapper id (storage (snd (putWrapperRoute path body (mkWorld s h))))
            = Some new /\
            wrapperMerged old body new
      end).
Proof.
  repeat split.
  - intros upd. unfold getWrapper, updateWrapper.
    destruct (JsMap.get id (wrappers s)) as [old|]; [|reflexivity].
    eexists. split; [reflexivity|]. split; [apply get_set_eq|].
    repeat split; try apply spread_suppliedOrKept.
    cbn. now destruct (PartialWrapper.userId upd).
  - intros upd. unfold getPrompt, updatePrompt.
    destruct (JsMap.get id (prompts s)) as [old|]; [|reflexivity].
    eexists. split; [reflexivity|]. split; [apply get_set_eq|].
    repeat split; apply spread_suppliedOrKept.
  - intros upd. unfold getIntegration, updateIntegration.
    destruct (JsMap.get id (integrations s)) as [old|]; [|reflexivity].
    eexists. split; [reflexivity|]. split; [apply get_set_eq|].
    repeat split; apply spread_suppliedOrKept.
  - intros upd. unfold getConversation, updateConversation.
    destruct (JsMap.get id (conversations s)) as [old|]; [|reflexivity].
    eexists. split; [reflexivity|]. split; [apply get_set_eq|].
    repeat split; apply spread_suppliedOrKept.
  - intros path body h Hpath.
    unfold putWrapperRoute, insertWrapperSchema_partial_parse.
    rewrite Hpath. cbn [storage]. unfold getWrapper, updateWrapper.
    destruct (JsMap.get id (wrappers s)) as [old|]; [|reflexivity].
    eexists. split; [reflexivity|]. split; [apply get_set_eq|].
    repeat split; try apply spread_suppliedOrKept.
    cbn. now destruct (PartialWrapper.userId body).
Qed.

Lemma update_merges_supplied_fields_witness :
  exists new,
    fst (putWrapperRoute "1" zeroSamplingBody (initialWorld 0))
    = mkResponse 200 (JsonWrapper new) /\
    getWrapper 1
      (storage (snd (putWrapperRoute "1" zeroSamplingBody (initialWorld 0))))
    = Some new /\
    wrapperMerged demoWrapper zeroSamplingBody new.
Proof.
  exact (proj2 (proj2 (proj2 (proj2
           (update_merges_supplied_fields (storage (initialWorld 0)) 1))))
           "1" zeroSamplingBody [] eq_refl).
Defined.

(** ** C9: deleting a wrapper *)

Lemma deleteWrapper_frame id s :
  let s' := snd (deleteWrapper id s) in
  users s' = users s /\ prompts s' = prompts s /\
  integrations s' = integrations s /\ conversations s' = conversations s.
Proof. repeat split. Qed.

Lemma deleteWrapperRoute_storage path id w :
  parseIntString path = Some id ->
  snd (deleteWrapperRoute path w)
  = mkWorld (snd (deleteWrapper id (storage w))) (heap w).
Proof.
  intros Hpath. unfold deleteWrapperRoute. rewrite Hpath.
  unfold deleteWrapper, JsMap.delete.
  now destruct (JsMap.has id (wrappers (storage w))).
Qed.

(** C9. [DELETE /api/wrappers/:id] removes the wrapper filed under the id
    and no other record: the other wrappers are as before, and every
    prompt, integration and conversation that references the deleted
    wrapper is still filed under its own id and still listed by the
    lookup by wrapper id, which lists what it listed before. *)
Theorem delete_wrapper_does_not_cascade path id w :
  parseIntString path = Some id ->
  let w' := snd (deleteWrapperRoute path w) in
  getWrapper id (storage w') = None /\
  (forall id', id' <> id ->
      getWrapper id' (storage w') = getWrapper id' (storage w)) /\
  (forall pid p,
      getPrompt pid (storage w) = Some p -> Prompt.wrapperId p = id ->
      getPrompt pid (storage w') = Some p /\
      In p (getPromptsByWrapperId id (storage w'))) /\
  (forall iid i,
      getIntegration iid (storage w) = Some i -> Integration.wrapperId i = id ->
      getIntegration iid (storage w') = Some i /\
      In i (getIntegrationsByWrapperId id (storage w'))) /\
  (forall cid c,
      getConversation cid (storage w) = Some c -> Conversation.wrapperId c = id ->
      getConversation cid (storage w') = Some c /\
      In c (getConversationsByWrapperId id (storage w')) /\
      transcript cid w' = transcript cid w) /\
  getPromptsByWrapperId id (storage w') = getPromptsByWrapperId id (storage w) /\
  getIntegrationsByWrapperId id (storage w')
  = getIntegrationsByWrapperId id (storage w) /\
  getConversationsByWrapperId id (storage w')
  = getConversationsByWrapperId id (storage w).
Proof.
  intros Hpath w'. unfold w'.
  rewrite (deleteWrapperRoute_storage path id w Hpath). cbn [storage heap].
  split; [|split; [|split; [|split; [|split; [|repeat split]]]]].
  - unfold getWrapper, deleteWrapper, JsMap.delete; simpl. apply get_remove_eq.
  - intros id' Hne. unfold getWrapper, deleteWrapper, JsMap.delete; simpl.
    apply get_remove_ne. congruence.
  - intros pid p Hp Hw. split; [exact Hp|].
    unfold getPromptsByWrapperId. apply List.filter_In. split.
    + exact (get_In_values _ _ _ Hp).
    + rewrite Hw. apply Z.eqb_refl.
  - intros iid i Hi Hw. split; [exact Hi|].
    unfold getIntegrationsByWrapperId. apply List.filter_In. split.
    + exact (get_In_values _ _ _ Hi).
    + rewrite Hw. apply Z.eqb_refl.
  - intros cid c Hc Hw. split; [exact Hc|]. split; [|reflexivity].
    unfold getConversationsByWrapperId. apply List.filter_In. split.
    + exact (get_In_values _ _ _ Hc).
    + rewrite Hw. apply Z.eqb_refl.
Qed.

Lemma delete_wrapper_does_not_cascade_witness :
  let w' := snd (deleteWrapperRoute "1" populated) in
  getWrapper 1 (storage w') = None /\
  In (Prompt.mk 1 "Greeting" "Say hello" None 1 None 1)
    (getPromptsByWrapperId 1 (storage w')) /\
  In (Integration.mk 1 "Docs" "knowledge_base" "{}" 1 2)
    (getIntegrationsByWrapperId 1 (storage w')) /\
  In (Conversation.mk 1 1 0 3) (getConversationsByWrapperId 1 (storage w')).
Proof.
  refine (let H := delete_wrapper_does_not_cascade "1" 1 populated eq_refl in _).
  destruct H as (Hgone & _ & Hp & Hi & Hc & _).
  split; [exact Hgone|]. split; [|split].
  - exact (proj2 (Hp 1 _ eq_refl eq_refl)).
  - exact (proj2 (Hi 1 _ eq_refl eq_refl)).
  - exact (proj1 (proj2 (Hc 1 _ eq_refl eq_refl))).
Defined.

(** * Further properties of the store and of the handlers *)

(** ** Maps with growing keys *)

Section MapOk.
Context {V : Type} (idOf : V -> Z).
Implicit Types (m : JsMap.t V) (k n : Z) (v : V).

Lemma mapOk_empty n : mapOk idOf n JsMap.empty.
Proof. split; constructor. Qed.

Lemma mapOk_get n m k v :
  mapOk idOf n m -> JsMap.get k m = Some v -> idOf v = k /\ k < n.
Proof.
  intros [_ Hall]. induction m as [|[k' v'] m IH]; simpl; [discriminate|].
  inversion Hall as [|? ? [Hid Hlt] Hrest]; subst. simpl in *.
  destruct (Z.eqb_spec k k') as [->|Hne].
  - intros [= <-]. now split.
  - now apply IH.
Qed.

Lemma mapOk_get_counter n m : mapOk idOf n m -> JsMap.get n m = None.
Proof.
  intros Hok. destruct (JsMap.get n m) as [v|] eqn:E; [|reflexivity].
  destruct (mapOk_get _ _ _ _ Hok E). lia.
Qed.

Lemma get_In k v m : JsMap.get k m = Some v -> In (k, v) m.
Proof.
  induction m as [|[k' v'] m IH]; simpl; [discriminate|].
  destruct (Z.eqb_spec k k') as [->|Hne].
  - intros [= <-]. now left.
  - right. auto.
Qed.

Lemma In_get n m k v : mapOk idOf n m -> In (k, v) m -> JsMap.get k m = Some v.
Proof.
  intros [Hsorted _]. induction m as [|[k' v'] m IH]; simpl; [contradiction|].
  simpl in Hsorted. inversion Hsorted as [|? ? Hs Hlt]; subst.
  intros [[= -> ->]|Hin].
  - now rewrite Z.eqb_refl.
  - destruct (Z.eqb_spec k k') as [->|Hne]; [|now apply IH].
    rewrite List.Forall_forall in Hlt.
    specialize (Hlt k' (in_map fst _ _ Hin)). simpl in Hlt. lia.
Qed.

(** A key below every key of the map... does not occur: setting a key
    above all keys appends. *)
Lemma set_above k v m :
  Forall (fun kv => fst kv < k) m -> JsMap.set k v m = m ++ [(k, v)].
Proof.
  induction m as [|[k' v'] m IH]; simpl; [reflexivity|].
  intros Hall. inversion Hall as [|? ? Hlt Hrest]; subst. simpl in Hlt.
  destruct (Z.eqb_spec k k'); [lia|]. now rewrite IH.
Qed.

Lemma keys_set_present k v v0 m :
  JsMap.get k m = Some v0 -> map fst (JsMap.set k v m) = map fst m.
Proof.
  induction m as [|[k' v'] m IH]; simpl; [discriminate|].
  destruct (Z.eqb_spec k k') as [->|Hne]; simpl; [reflexivity|].
  intros H. now rewrite IH.
Qed.

Lemma In_set k v m kv :
  In kv (JsMap.set k v m) -> kv = (k, v) \/ In kv m.
Proof.
  induction m as [|[k' v'] m IH]; simpl.
  - intros [<-|[]]. now left.
  - destruct (Z.eqb k k'); simpl.
    + intros [<-|H]; [now left | right; now right].
    + intros [<-|H]; [right; now left|].
      destruct (IH H); [now left | right; now right].
Qed.

Lemma mapOk_later n n' m : mapOk idOf n m -> n <= n' -> mapOk idOf n' m.
Proof.
  intros [Hs Hall] Hle. split; [assumption|].
  eapply List.Forall_impl; [|exact Hall]. simpl. intros kv [? ?]. split; [assumption|lia].
Qed.

Lemma mapOk_create n m v :
  mapOk idOf n m -> idOf v = n -> mapOk idOf (n + 1) (JsMap.set n v m).
Proof.
  intros [Hs Hall] Hid.
  assert (Hbelow : Forall (fun kv => fst kv < n) m)
    by (eapply List.Forall_impl; [|exact Hall]; simpl; tauto).
  rewrite (set_above _ _ _ Hbelow). split.
  - rewrite map_app. simpl.
    clear Hall. induction m as [|[k' v'] m IH]; simpl.
    + repeat constructor.
    + inversion Hs as [|? ? Hs' Hlt]; subst.
      inversion Hbelow as [|? ? Hk Hrest]; subst. simpl in Hk.
      constructor; [now apply IH|].
      rewrite List.Forall_app. split; [assumption|]. now repeat constructor.
  - rewrite List.Forall_app. split.
    + eapply List.Forall_impl; [|exact Hall]. simpl. intros kv [? ?]. split; [assumption|lia].
    + repeat constructor; simpl; [assumption|lia].
Qed.

Lemma mapOk_update n m k v v0 :
  mapOk idOf n m -> JsMap.get k m = Some v0 -> idOf v = k ->
  mapOk idOf n (JsMap.set k v m).
Proof.
  intros Hok Hget Hid. destruct (mapOk_get _ _ _ _ Hok Hget) as [_ Hlt].
  destruct Hok as [Hs Hall]. split.
  - now rewrite (keys_set_present _ _ _ _ Hget).
  - rewrite List.Forall_forall in *. intros kv Hin.
    destruct (In_set _ _ _ _ Hin) as [->|Hin']; [now split | now apply Hall].
Qed.

Lemma mapOk_remove n m k : mapOk idOf n m -> mapOk idOf n (JsMap.remove k m).
Proof.
  intros [Hs Hall]. unfold JsMap.remove. split.
  - clear Hall. induction m as [|[k' v'] m IH]; simpl; [constructor|].
    inversion Hs as [|? ? Hs' Hlt]; subst.
    destruct (negb (Z.eqb k k')); simpl; [|now apply IH].
    constructor; [now apply IH|].
    rewrite List.Forall_forall in *. intros x Hx. apply Hlt.
    apply in_map_iff in Hx as (kv & <- & Hkv).
    apply List.filter_In in Hkv as [Hkv _]. now apply in_map.
  - rewrite List.Forall_forall in *. intros kv Hin.
    apply List.filter_In in Hin as [Hin _]. now apply Hall.
Qed.

(** With such a map, removing a key that is absent changes nothing. *)
Lemma remove_absent k m : JsMap.get k m = None -> JsMap.remove k m = m.
Proof.
  unfold JsMap.remove.
  induction m as [|[k' v'] m IH]; simpl; [reflexivity|].
  destruct (Z.eqb k k'); [discriminate|]. simpl. intros H. now rewrite IH.
Qed.

Lemma ids_values n m :
  mapOk idOf n m -> map idOf (JsMap.values m) = map fst m.
Proof.
  intros [_ Hall]. unfold JsMap.values.
  induction m as [|[k' v'] m IH]; simpl; [reflexivity|].
  inversion Hall as [|? ? [Hid _] Hrest]; subst. simpl in Hid.
  now rewrite Hid, IH.
Qed.

Lemma sorted_filter_ids n m (f : V -> bool) :
  mapOk idOf n m ->
  StronglySorted Z.lt (map idOf (List.filter f (JsMap.values m))).
Proof.
  intros Hok. pose proof (ids_values _ _ Hok) as Hids.
  destruct Hok as [Hs _]. rewrite <- Hids in Hs. clear Hids.
  induction (JsMap.values m) as [|v vs IH]; simpl; [constructor|].
  simpl in Hs. inversion Hs as [|? ? Hs' Hlt]; subst.
  destruct (f v); simpl; [|now apply IH].
  constructor; [now apply IH|].
  rewrite List.Forall_forall in *. intros x Hx. apply Hlt.
  apply in_map_iff in Hx as (y & <- & Hy).
  apply List.filter_In in Hy as [Hy _]. now apply in_map.
Qed.
End MapOk.

(** ** The identities of the store *)

Lemma storageOk_with_users s f n :
  storageOk s -> mapOk User.id n (f (users s)) -> storageOk (with_users f n s).
Proof.
  intros (? & ? & ? & ? & ?) ?.
  split; [|split; [|split; [|split]]]; assumption.
Qed.

Lemma storageOk_with_wrappers s f n :
  storageOk s -> mapOk Wrapper.id n (f (wrappers s)) ->
  storageOk (with_wrappers f n s).
Proof.
  intros (? & ? & ? & ? & ?) ?.
  split; [|split; [|split; [|split]]]; assumption.
Qed.

Lemma storageOk_with_prompts s f n :
  storageOk s -> mapOk Prompt.id n (f (prompts s)) ->
  storageOk (with_prompts f n s).
Proof.
  intros (? & ? & ? & ? & ?) ?.
  split; [|split; [|split; [|split]]]; assumption.
Qed.

Lemma storageOk_with_integrations s f n :
  storageOk s -> mapOk Integration.id n (f (integrations s)) ->
  storageOk (with_integrations f n s).
Proof.
  intros (? & ? & ? & ? & ?) ?.
  split; [|split; [|split; [|split]]]; assumption.
Qed.

Lemma storageOk_with_conversations s f n :
  storageOk s -> mapOk Conversation.id n (f (conversations s)) ->
  storageOk (with_conversations f n s).
Proof.
  intros (? & ? & ? & ? & ?) ?.
  split; [|split; [|split; [|split]]]; assumption.
Qed.

Lemma storageOk_createUser ins s :
  storageOk s -> storageOk (snd (createUser ins s)).
Proof.
  intros Hok. apply storageOk_with_users; [assumption|].
  apply mapOk_create; [apply Hok | reflexivity].
Qed.

Lemma storageOk_createWrapper now ins s :
  storageOk s -> storageOk (snd (createWrapper now ins s)).
Proof.
  intros Hok. apply storageOk_with_wrappers; [assumption|].
  apply mapOk_create; [apply Hok | reflexivity].
Qed.

Lemma storageOk_createPrompt now ins s :
  storageOk s -> storageOk (snd (createPrompt now ins s)).
Proof.
  intros Hok. apply storageOk_with_prompts; [assumption|].
  apply mapOk_create; [apply Hok | reflexivity].
Qed.

Lemma storageOk_createIntegration now ins s :
  storageOk s -> storageOk (snd (createIntegration now ins s)).
Proof.
  intros Hok. apply storageOk_with_integrations; [assumption|].
  apply mapOk_create; [apply Hok | reflexivity].
Qed.

Lemma storageOk_createConversation now ins s :
  storageOk s -> storageOk (snd (createConversation now ins s)).
Proof.
  intros Hok. apply storageOk_with_conversations; [assumption|].
  apply mapOk_create; [apply Hok | reflexivity].
Qed.

Lemma storageOk_updateWrapper id upd s :
  storageOk s -> storageOk (snd (updateWrapper id upd s)).
Proof.
  intros Hok. unfold updateWrapper.
  destruct (JsMap.get id (wrappers s)) as [old|] eqn:E; [|assumption].
  apply storageOk_with_wrappers; [assumption|].
  eapply mapOk_update; [apply Hok | exact E |].
  simpl. eapply mapOk_get; [apply Hok | exact E].
Qed.

Lemma storageOk_updatePrompt id upd s :
  storageOk s -> storageOk (snd (updatePrompt id upd s)).
Proof.
  intros Hok. unfold updatePrompt.
  destruct (JsMap.get id (prompts s)) as [old|] eqn:E; [|assumption].
  apply storageOk_with_prompts; [assumption|].
  eapply mapOk_update; [apply Hok | exact E |].
  simpl. eapply mapOk_get; [apply Hok | exact E].
Qed.

Lemma storageOk_updateIntegration id upd s :
  storageOk s -> storageOk (snd (updateIntegration id upd s)).
Proof.
  intros Hok. unfold updateIntegration.
  destruct (JsMap.get id (integrations s)) as [old|] eqn:E; [|assumption].
  apply storageOk_with_integrations; [assumption|].
  eapply mapOk_update; [apply Hok | exact E |].
  simpl. eapply mapOk_get; [apply Hok | exact E].
Qed.

Lemma storageOk_updateConversation id upd s :
  storageOk s -> storageOk (snd (updateConversation id upd s)).
Proof.
  intros Hok. unfold updateConversation.
  destruct (JsMap.get id (conversations s)) as [old|] eqn:E; [|assumption].
  apply storageOk_with_conversations; [assumption|].
  eapply mapOk_update; [apply Hok | exact E |].
  simpl. eapply mapOk_get; [apply Hok | exact E].
Qed.

Lemma storageOk_deleteWrapper id s :
  storageOk s -> storageOk (snd (deleteWrapper id s)).
Proof.
  intros Hok. unfold deleteWrapper, JsMap.delete.
  apply storageOk_with_wrappers; [assumption|]. apply mapOk_remove, Hok.
Qed.

Lemma storageOk_deletePrompt id s :
  storageOk s -> storageOk (snd (deletePrompt id s)).
Proof.
  intros Hok. unfold deletePrompt, JsMap.delete.
  apply storageOk_with_prompts; [assumption|]. apply mapOk_remove, Hok.
Qed.

Lemma storageOk_deleteIntegration id s :
  storageOk s -> storageOk (snd (deleteIntegration id s)).
Proof.
  intros Hok. unfold deleteIntegration, JsMap.delete.
  apply storageOk_with_integrations; [assumption|]. apply mapOk_remove, Hok.
Qed.

Lemma storageOk_initial now : storageOk (newMemStorage now).
Proof.
  unfold newMemStorage, initializeDemoData.
  destruct (createUser _ emptyStorage) as [u s] eqn:E.
  apply storageOk_createWrapper.
  replace s with (snd (createUser (InsertUser.mk "demo_user" "password123")
                         emptyStorage)) by now rewrite E.
  apply storageOk_createUser.
  repeat split; constructor.
Qed.

(** What a request can do to the store: nothing, or one storage call. *)
Lemma storageOk_persist now wid l conversation s :
  storageOk s -> storageOk (snd (persist now wid l conversation s)).
Proof.
  intros Hok. destruct conversation as [c|]; simpl persist.
  - now apply storageOk_updateConversation.
  - now apply storageOk_createConversation.
Qed.

Lemma postChatRoute_storage sendMessage now body w :
  storage (snd (postChatRoute sendMessage now body w)) = storage w \/
  exists wid l,
    storage (snd (postChatRoute sendMessage now body w))
    = snd (persist now wid l
             (loadConversation (ChatBody.conversationId body) (storage w))
             (storage w)).
Proof.
  unfold postChatRoute.
  destruct (_ || _); [now left|].
  destruct (parseInt _) as [wid|]; [|now left].
  destruct (getWrapper _ _); [|now left].
  destruct (assemble _ _ _ _) as [l h].
  destruct (last _); [|now left].
  destruct (Gemini.parts _); [now left|].
  destruct (sendMessage _ _ _); [|now left].
  right. exists wid, l.
  now destruct (persist _ _ _ _ _).
Qed.

Lemma storageOk_handle r w :
  storageOk (storage w) -> storageOk (storage (snd (handle r w))).
Proof.
  intros Hok.
  destruct r as [|id|now wb|id wb|id|wrapperId|now wrapperId pb|wrapperId
                |now wrapperId ib|wrapperId|now wrapperId cb|sendMessage now cbody];
    simpl.
  - exact Hok.
  - unfold getWrapperRoute. destruct (parseIntString id) as [k|]; [|assumption].
    now destruct (getWrapper k (storage w)).
  - unfold postWrapperRoute.
    destruct (insertWrapperSchema_parse _) as [ins|]; [|assumption].
    pose proof (storageOk_createWrapper now ins _ Hok).
    now destruct (createWrapper now ins (storage w)).
  - unfold putWrapperRoute, insertWrapperSchema_partial_parse.
    destruct (parseIntString id) as [k|]; [|assumption].
    pose proof (storageOk_updateWrapper k wb _ Hok).
    destruct (updateWrapper k wb (storage w)) as [[u|] s]; assumption.
  - unfold deleteWrapperRoute.
    destruct (parseIntString id) as [k|]; [|assumption].
    pose proof (storageOk_deleteWrapper k _ Hok).
    destruct (deleteWrapper k (storage w)) as [[|] s]; assumption.
  - unfold getPromptsRoute. now destruct (parseIntString wrapperId).
  - unfold postPromptRoute.
    destruct (parseIntString wrapperId) as [k|]; [|assumption].
    destruct (getWrapper k (storage w)); [|assumption].
    destruct (insertPromptSchema_parse _) as [ins|]; [|assumption].
    pose proof (storageOk_createPrompt now ins _ Hok).
    now destruct (createPrompt now ins (storage w)).
  - unfold getIntegrationsRoute. now destruct (parseIntString wrapperId).
  - unfold postIntegrationRoute.
    destruct (parseIntString wrapperId) as [k|]; [|assumption].
    destruct (getWrapper k (storage w)); [|assumption].
    destruct (insertIntegrationSchema_parse _) as [ins|]; [|assumption].
    pose proof (storageOk_createIntegration now ins _ Hok).
    now destruct (createIntegration now ins (storage w)).
  - unfold getConversationsRoute. now destruct (parseIntString wrapperId).
  - unfold postConversationRoute.
    destruct (parseIntString wrapperId) as [k|]; [|assumption].
    destruct (getWrapper k (storage w)); [|assumption].
    destruct (ConversationBody.messages cb) as [ms|]; [|assumption].
    unfold alloc.
    pose proof (storageOk_createConversation now
                  (InsertConversation.mk k (length (heap w))) _ Hok).
    now destruct (createConversation now _ (storage w)).
  - destruct (postChatRoute_storage sendMessage now cbody w) as [->|(wid & l & ->)];
      [assumption | now apply storageOk_persist].
Qed.

Lemma reachable_storageOk w : reachable w -> storageOk (storage w).
Proof.
  induction 1 as [now|r w _ IH].
  - apply storageOk_initial.
  - now apply storageOk_handle.
Qed.

(** X1. In every world the server can reach, a record of any of the five
    kinds is filed under the id it carries, and that id is below the
    counter of its kind: the counter's value is never an id in use. *)
Theorem reachable_records_carry_their_id w :
  reachable w ->
  let s := storage w in
  (forall id x, getUser id s = Some x ->
      User.id x = id /\ id < currentUserId s) /\
  (forall id x, getWrapper id s = Some x ->
      Wrapper.id x = id /\ id < currentWrapperId s) /\
  (forall id x, getPrompt id s = Some x ->
      Prompt.id x = id /\ id < currentPromptId s) /\
  (forall id x, getIntegration id s = Some x ->
      Integration.id x = id /\ id < currentIntegrationId s) /\
  (forall id x, getConversation id s = Some x ->
      Conversation.id x = id /\ id < currentConversationId s) /\
  getUser (currentUserId s) s = None /\
  getWrapper (currentWrapperId s) s = None /\
  getPrompt (currentPromptId s) s = None /\
  getIntegration (currentIntegrationId s) s = None /\
  getConversation (currentConversationId s) s = None.
Proof.
  intros Hr s. destruct (reachable_storageOk w Hr) as (Hu & Hw & Hp & Hi & Hc).
  fold s in Hu, Hw, Hp, Hi, Hc.
  split; [intros id x Hx; exact (mapOk_get _ _ _ _ _ Hu Hx)|].
  split; [intros id x Hx; exact (mapOk_get _ _ _ _ _ Hw Hx)|].
  split; [intros id x Hx; exact (mapOk_get _ _ _ _ _ Hp Hx)|].
  split; [intros id x Hx; exact (mapOk_get _ _ _ _ _ Hi Hx)|].
  split; [intros id x Hx; exact (mapOk_get _ _ _ _ _ Hc Hx)|].
  split; [exact (mapOk_get_counter _ _ _ Hu)|].
  split; [exact (mapOk_get_counter _ _ _ Hw)|].
  split; [exact (mapOk_get_counter _ _ _ Hp)|].
  split; [exact (mapOk_get_counter _ _ _ Hi)|].
  exact (mapOk_get_counter _ _ _ Hc).
Qed.

Lemma reachable_records_carry_their_id_witness :
  Prompt.id (Prompt.mk 1 "Greeting" "Say hello" None 1 None 1) = 1 /\
  1 < currentPromptId (storage populated).
Proof.
  refine (let H := reachable_records_carry_their_id populated
                     (reachable_serve _ _ (reachable_initial 0)) in _).
  destruct H as (_ & _ & H & _).
  exact (H 1 (Prompt.mk 1 "Greeting" "Say hello" None 1 None 1) eq_refl).
Defined.

(** X2. In every reachable world the lookups by wrapper id list their
    records in the order of creation, which is the order of growing ids,
    each record once; so does [GET /api/wrappers]. *)
Theorem reachable_listings_in_creation_order w userId wrapperId :
  reachable w ->
  let s := storage w in
  StronglySorted Z.lt (map Wrapper.id (getWrappersByUserId userId s)) /\
  StronglySorted Z.lt (map Prompt.id (getPromptsByWrapperId wrapperId s)) /\
  StronglySorted Z.lt
    (map Integration.id (getIntegrationsByWrapperId wrapperId s)) /\
  StronglySorted Z.lt
    (map Conversation.id (getConversationsByWrapperId wrapperId s)).
Proof.
  intros Hr s. destruct (reachable_storageOk w Hr) as (_ & Hw & Hp & Hi & Hc).
  repeat split.
  - exact (sorted_filter_ids _ _ _ _ Hw).
  - exact (sorted_filter_ids _ _ _ _ Hp).
  - exact (sorted_filter_ids _ _ _ _ Hi).
  - exact (sorted_filter_ids _ _ _ _ Hc).
Qed.

Lemma reachable_listings_in_creation_order_witness :
  StronglySorted Z.lt
    (map Wrapper.id (getWrappersByUserId 1 (storage twoWrappers))).
Proof.
  exact (proj1 (reachable_listings_in_creation_order twoWrappers 1 1
                  (reachable_serve _ _ (reachable_initial 0)))).
Defined.

(** ** Creating *)

Lemma In_values_set {V : Type} k (v : V) m : In v (JsMap.values (JsMap.set k v m)).
Proof. apply (get_In_values k), get_set_eq. Qed.

(** X3. [POST /api/wrappers] with a body that has [name] and [baseModel],
    in a reachable world: the answer is 201 with a wrapper whose id is the
    counter's value, an id no wrapper had; the wrapper's [userId] is 1
    whatever the body said; afterwards the wrapper is found under its id,
    also through [GET /api/wrappers/:id], and listed by
    [GET /api/wrappers]; every other wrapper is as before and the counter
    has advanced by one. *)
Theorem post_wrapper_files_new_record now body w name baseModel :
  reachable w ->
  PartialWrapper.name body = Some name ->
  PartialWrapper.baseModel body = Some baseModel ->
  let rw := postWrapperRoute now body w in
  exists wrapper,
    fst rw = mkResponse 201 (JsonWrapper wrapper) /\
    Wrapper.id wrapper = currentWrapperId (storage w) /\
    Wrapper.name wrapper = name /\
    Wrapper.baseModel wrapper = baseModel /\
    Wrapper.userId wrapper = Some 1 /\
    Wrapper.createdAt wrapper = now /\
    getWrapper (Wrapper.id wrapper) (storage w) = None /\
    getWrapper (Wrapper.id wrapper) (storage (snd rw)) = Some wrapper /\
    (forall path, parseIntString path = Some (Wrapper.id wrapper) ->
        fst (getWrapperRoute path (snd rw)) = mkResponse 200 (JsonWrapper wrapper)) /\
    In wrapper (getWrappersByUserId 1 (storage (snd rw))) /\
    (forall id, id <> Wrapper.id wrapper ->
        getWrapper id (storage (snd rw)) = getWrapper id (storage w)) /\
    currentWrapperId (storage (snd rw)) = currentWrapperId (storage w) + 1.
Proof.
  intros Hr Hname Hbase rw.
  destruct (reachable_storageOk w Hr) as (_ & Hw & _).
  unfold rw, postWrapperRoute, insertWrapperSchema_parse, forceUserId.
  cbn [PartialWrapper.name PartialWrapper.baseModel PartialWrapper.userId].
  rewrite Hname, Hbase. unfold createWrapper. cbn [fst snd storage].
  eexists. split; [reflexivity|]. cbn [Wrapper.id Wrapper.name Wrapper.baseModel
    Wrapper.userId Wrapper.createdAt InsertWrapper.name InsertWrapper.baseModel
    InsertWrapper.userId].
  repeat split.
  - exact (mapOk_get_counter _ _ _ Hw).
  - apply get_set_eq.
  - intros path Hpath. unfold getWrapperRoute. rewrite Hpath. cbn [storage].
    unfold getWrapper at 1. cbn [wrappers with_wrappers]. now rewrite get_set_eq.
  - unfold getWrappersByUserId. apply List.filter_In. split.
    + cbn [wrappers with_wrappers]. apply In_values_set.
    + reflexivity.
  - intros id Hne. unfold getWrapper. cbn [wrappers with_wrappers].
    apply get_set_ne. congruence.
Qed.

Lemma post_wrapper_files_new_record_witness :
  exists wrapper,
    fst (postWrapperRoute 1 minimalWrapperBody (initialWorld 0))
    = mkResponse 201 (JsonWrapper wrapper) /\
    Wrapper.id wrapper = 2 /\ Wrapper.userId wrapper = Some 1.
Proof.
  refine (let H := post_wrapper_files_new_record 1 minimalWrapperBody
                     (initialWorld 0) "Minimal" "Gemini Pro"
                     (reachable_initial 0) eq_refl eq_refl in _).
  destruct H as (wrapper & H1 & H2 & _ & _ & H5 & _).
  exists wrapper. repeat split; assumption.
Defined.

(** X4. [POST /api/wrappers] with a body that lacks [name] or [baseModel]
    is answered with 400 and changes nothing. *)
Theorem post_wrapper_missing_required now body w :
  PartialWrapper.name body = None \/ PartialWrapper.baseModel body = None ->
  postWrapperRoute now body w = (mkResponse 400 JsonZodError, w).
Proof.
  intros H. unfold postWrapperRoute, insertWrapperSchema_parse, forceUserId.
  cbn [PartialWrapper.name PartialWrapper.baseModel PartialWrapper.userId].
  destruct H as [-> | ->]; [reflexivity|].
  now destruct (PartialWrapper.name body).
Qed.

Lemma post_wrapper_missing_required_witness :
  postWrapperRoute 1
    (PartialWrapper.mk (Some "No model") None None None None None None None
       None None None)
    (initialWorld 0)
  = (mkResponse 400 JsonZodError, initialWorld 0).
Proof.
  apply post_wrapper_missing_required. right. reflexivity.
Defined.

Lemma values_set_counter {V : Type} (idOf : V -> Z) n (v : V) m :
  mapOk idOf n m -> JsMap.values (JsMap.set n v m) = JsMap.values m ++ [v].
Proof.
  intros [_ Hall].
  rewrite set_above.
  - unfold JsMap.values. now rewrite map_app.
  - eapply List.Forall_impl; [|exact Hall]. simpl. tauto.
Qed.

(** X5. [POST /api/wrappers/:wrapperId/prompts] for a wrapper that exists,
    with a body that has [name] and [content], in a reachable world: the
    answer is 201 with a prompt under a fresh id whose [wrapperId] is the
    id of the path, whatever the body said; the prompt is found under its
    id, and the prompts listed for the wrapper are those listed before
    followed by the new one. *)
Theorem post_prompt_files_under_path_wrapper
    now path id body w wrapper name content :
  reachable w ->
  parseIntString path = Some id ->
  getWrapper id (storage w) = Some wrapper ->
  PartialPrompt.name body = Some name ->
  PartialPrompt.content body = Some content ->
  let rw := postPromptRoute now path body w in
  exists prompt,
    fst rw = mkResponse 201 (JsonPrompt prompt) /\
    Prompt.id prompt = currentPromptId (storage w) /\
    Prompt.wrapperId prompt = id /\
    Prompt.name prompt = name /\
    Prompt.content prompt = content /\
    getPrompt (Prompt.id prompt) (storage w) = None /\
    getPrompt (Prompt.id prompt) (storage (snd rw)) = Some prompt /\
    getPromptsByWrapperId id (storage (snd rw))
    = getPromptsByWrapperId id (storage w) ++ [prompt] /\
    fst (getPromptsRoute path (snd rw))
    = mkResponse 200
        (JsonPrompts (getPromptsByWrapperId id (storage w) ++ [prompt])).
Proof.
  intros Hr Hpath Hget Hname Hcontent rw.
  destruct (reachable_storageOk w Hr) as (_ & _ & Hp & _).
  assert (Hlist : forall prompt,
             Prompt.wrapperId prompt = id ->
             getPromptsByWrapperId id
               (with_prompts (JsMap.set (currentPromptId (storage w)) prompt)
                  (currentPromptId (storage w) + 1) (storage w))
             = getPromptsByWrapperId id (storage w) ++ [prompt]).
  { intros prompt Hid. unfold getPromptsByWrapperId. cbn [prompts with_prompts].
    rewrite (values_set_counter _ _ _ _ Hp), List.filter_app. simpl.
    now rewrite Hid, Z.eqb_refl. }
  unfold rw, postPromptRoute. rewrite Hpath, Hget.
  unfold insertPromptSchema_parse, promptBodyFor.
  cbn [PartialPrompt.name PartialPrompt.content PartialPrompt.wrapperId].
  rewrite Hname, Hcontent. unfold createPrompt. cbn [fst snd storage].
  eexists. split; [reflexivity|].
  cbn [Prompt.id Prompt.wrapperId Prompt.name Prompt.content
       InsertPrompt.name InsertPrompt.content InsertPrompt.wrapperId].
  split; [reflexivity|]. split; [reflexivity|]. split; [reflexivity|].
  split; [reflexivity|].
  split; [exact (mapOk_get_counter _ _ _ Hp)|].
  split; [apply get_set_eq|].
  split; [now apply Hlist|].
  unfold getPromptsRoute. rewrite Hpath. cbn [fst storage].
  now rewrite Hlist.
Qed.

Lemma post_prompt_files_under_path_wrapper_witness :
  exists prompt,
    fst (postPromptRoute 1 "1" somePromptBody (initialWorld 0))
    = mkResponse 201 (JsonPrompt prompt) /\
    Prompt.id prompt = 1 /\ Prompt.wrapperId prompt = 1.
Proof.
  refine (let H := post_prompt_files_under_path_wrapper 1 "1" 1 somePromptBody
                     (initialWorld 0) demoWrapper "Greeting" "Say hello"
                     (reachable_initial 0) eq_refl eq_refl eq_refl eq_refl in _).
  destruct H as (prompt & H1 & H2 & H3 & _).
  exists prompt. repeat split; assumption.
Defined.

(** X6. [POST /api/wrappers/:wrapperId/integrations] for a wrapper that
    exists, with a body that has [name], [type] and [config], in a
    reachable world: 201 with an integration under a fresh id, bound to the
    wrapper of the path, and listed for that wrapper after those listed
    before. *)
Theorem post_integration_files_under_path_wrapper
    now path id body w wrapper name type config :
  reachable w ->
  parseIntString path = Some id ->
  getWrapper id (storage w) = Some wrapper ->
  PartialIntegration.name body = Some name ->
  PartialIntegration.type body = Some type ->
  PartialIntegration.config body = Some config ->
  let rw := postIntegrationRoute now path body w in
  exists integration,
    fst rw = mkResponse 201 (JsonIntegration integration) /\
    integration
    = Integration.mk (currentIntegrationId (storage w)) name type config id now /\
    getIntegration (Integration.id integration) (storage w) = None /\
    getIntegration (Integration.id integration) (storage (snd rw))
    = Some integration /\
    getIntegrationsByWrapperId id (storage (snd rw))
    = getIntegrationsByWrapperId id (storage w) ++ [integration].
Proof.
  intros Hr Hpath Hget Hname Htype Hconfig rw.
  destruct (reachable_storageOk w Hr) as (_ & _ & _ & Hi & _).
  unfold rw, postIntegrationRoute. rewrite Hpath, Hget.
  unfold insertIntegrationSchema_parse, integrationBodyFor.
  cbn [PartialIntegration.name PartialIntegration.type
       PartialIntegration.config PartialIntegration.wrapperId].
  rewrite Hname, Htype, Hconfig. unfold createIntegration. cbn [fst snd storage].
  eexists. split; [reflexivity|].
  cbn [Integration.id InsertIntegration.name InsertIntegration.type
       InsertIntegration.config InsertIntegration.wrapperId].
  split; [reflexivity|].
  split; [exact (mapOk_get_counter _ _ _ Hi)|].
  split; [apply get_set_eq|].
  unfold getIntegrationsByWrapperId. cbn [integrations with_integrations].
  rewrite (values_set_counter _ _ _ _ Hi), List.filter_app. simpl.
  now rewrite Z.eqb_refl.
Qed.

Lemma post_integration_files_under_path_wrapper_witness :
  exists integration,
    fst (postIntegrationRoute 2 "1" someIntegrationBody (initialWorld 0))
    = mkResponse 201 (JsonIntegration integration) /\
    integration = Integration.mk 1 "Docs" "knowledge_base" "{}" 1 2.
Proof.
  refine (let H := post_integration_files_under_path_wrapper 2 "1" 1
                     someIntegrationBody (initialWorld 0) demoWrapper
                     "Docs" "knowledge_base" "{}"
                     (reachable_initial 0) eq_refl eq_refl eq_refl eq_refl
                     eq_refl in _).
  destruct H as (integration & H1 & H2 & _).
  exists integration. split; assumption.
Defined.

(** X7. [POST /api/wrappers/:wrapperId/conversations] for a wrapper that
    exists, with a body that has [messages], in a reachable world: 201
    with a conversation under a fresh id, bound to the wrapper of the path,
    whose transcript is the array of the body; no other transcript
    changes. *)
Theorem post_conversation_files_transcript
    now path id body w wrapper messages :
  reachable w ->
  parseIntString path = Some id ->
  getWrapper id (storage w) = Some wrapper ->
  ConversationBody.messages body = Some messages ->
  let rw := postConversationRoute now path body w in
  exists conversation,
    fst rw = mkResponse 201 (JsonConversation conversation) /\
    Conversation.id conversation = currentConversationId (storage w) /\
    Conversation.wrapperId conversation = id /\
    getConversation (Conversation.id conversation) (storage w) = None /\
    transcript (Conversation.id conversation) (snd rw) = Some messages /\
    getConversationsByWrapperId id (storage (snd rw))
    = getConversationsByWrapperId id (storage w) ++ [conversation] /\
    (forall cid, cid <> Conversation.id conversation ->
        transcript cid (snd rw) = transcript cid w).
Proof.
  intros Hr Hpath Hget Hmessages rw.
  destruct (reachable_storageOk w Hr) as (_ & _ & _ & _ & Hc).
  pose proof (reachable_storeOk w Hr) as Hstore.
  unfold rw, postConversationRoute. rewrite Hpath, Hget, Hmessages.
  unfold alloc, createConversation. cbn [fst snd storage].
  eexists. split; [reflexivity|].
  cbn [Conversation.id Conversation.wrapperId InsertConversation.wrapperId
       InsertConversation.messages].
  split; [reflexivity|]. split; [reflexivity|].
  split; [exact (mapOk_get_counter _ _ _ Hc)|].
  split; [|split].
  - unfold transcript, getConversation. cbn [storage heap conversations
      with_conversations]. rewrite get_set_eq. cbn [Conversation.messages].
    now rewrite read_alloc_new.
  - unfold getConversationsByWrapperId. cbn [conversations with_conversations].
    rewrite (values_set_counter _ _ _ _ Hc), List.filter_app. simpl.
    now rewrite Z.eqb_refl.
  - intros cid Hne. unfold transcript, getConversation.
    cbn [storage heap conversations with_conversations].
    rewrite get_set_ne by congruence.
    destruct (JsMap.get cid (conversations (storage w))) as [c|] eqn:E;
      [|reflexivity].
    destruct (Hstore cid c E) as (_ & Hlt & _).
    now rewrite read_alloc_old.
Qed.

Lemma post_conversation_files_transcript_witness :
  exists conversation,
    fst (postConversationRoute 1 "1"
           (ConversationBody.mk None (Some [userMessage "kept"]))
           (initialWorld 0))
    = mkResponse 201 (JsonConversation conversation) /\
    transcript (Conversation.id conversation)
      (snd (postConversationRoute 1 "1"
              (ConversationBody.mk None (Some [userMessage "kept"]))
              (initialWorld 0)))
    = Some [userMessage "kept"].
Proof.
  refine (let H := post_conversation_files_transcript 1 "1" 1
                     (ConversationBody.mk None (Some [userMessage "kept"]))
                     (initialWorld 0) demoWrapper [userMessage "kept"]
                     (reachable_initial 0) eq_refl eq_refl eq_refl in _).
  destruct H as (conversation & H1 & _ & _ & _ & H5 & _).
  exists conversation. split; assumption.
Defined.

(** ** Deleting *)

(** X8. [DELETE /api/wrappers/:id]: the answer is 204 exactly when a
    wrapper was filed under the id; when none was, it is 404 and the world
    is unchanged; and a second delete of the same id is always answered
    with 404. *)
Theorem delete_wrapper_twice path id w :
  parseIntString path = Some id ->
  let rw1 := deleteWrapperRoute path w in
  let rw2 := deleteWrapperRoute path (snd rw1) in
  (forall wrapper, getWrapper id (storage w) = Some wrapper ->
      fst rw1 = mkResponse 204 NoBody) /\
  (getWrapper id (storage w) = None ->
      fst rw1 = mkResponse 404 (JsonError "Wrapper not found") /\ snd rw1 = w) /\
  fst rw2 = mkResponse 404 (JsonError "Wrapper not found") /\
  snd rw2 = snd rw1.
Proof.
  intros Hpath rw1 rw2.
  assert (Habsent : forall w0,
             getWrapper id (storage w0) = None ->
             deleteWrapperRoute path w0
             = (mkResponse 404 (JsonError "Wrapper not found"), w0)).
  { intros w0 Hnone. unfold deleteWrapperRoute. rewrite Hpath.
    unfold deleteWrapper, JsMap.delete, JsMap.has.
    unfold getWrapper in Hnone. rewrite Hnone, (remove_absent _ _ Hnone).
    destruct w0 as [[] ?]. reflexivity. }
  assert (Hgone : getWrapper id (storage (snd rw1)) = None).
  { unfold rw1. rewrite (deleteWrapperRoute_storage path id w Hpath).
    cbn [storage]. unfold getWrapper, deleteWrapper, JsMap.delete; simpl.
    apply get_remove_eq. }
  split; [|split].
  - intros wrapper Hsome. unfold rw1, deleteWrapperRoute. rewrite Hpath.
    unfold deleteWrapper, JsMap.delete, JsMap.has.
    unfold getWrapper in Hsome. now rewrite Hsome.
  - intros Hnone. unfold rw1. now rewrite (Habsent w Hnone).
  - unfold rw2. now rewrite (Habsent _ Hgone).
Qed.

Lemma delete_wrapper_twice_witness :
  fst (deleteWrapperRoute "1" (initialWorld 0)) = mkResponse 204 NoBody /\
  fst (deleteWrapperRoute "1" (snd (deleteWrapperRoute "1" (initialWorld 0))))
  = mkResponse 404 (JsonError "Wrapper not found").
Proof.
  refine (let H := delete_wrapper_twice "1" 1 (initialWorld 0) eq_refl in _).
  destruct H as (H1 & _ & H3 & _).
  split; [exact (H1 demoWrapper eq_refl) | exact H3].
Defined.

(** ** The chat handler: errors and frame *)


(** The statuses of the chat handler, by case. *)
Lemma postChatRoute_status sendMessage now body w :
  let rw := postChatRoute sendMessage now body w in
  (negb (truthy (ChatBody.wrapperId body))
   || negb (truthyString (ChatBody.message body)) = true ->
   rw = (mkResponse 400 (JsonError "Wrapper ID and message are required"), w)) /\
  (negb (truthy (ChatBody.wrapperId body))
   || negb (truthyString (ChatBody.message body)) = false ->
   match parseInt (ChatBody.wrapperId body) with
   | Some id => getWrapper id (storage w)
   | None => None
   end = None ->
   rw = (mkResponse 404 (JsonError "Wrapper not found"), w)) /\
  (negb (truthy (ChatBody.wrapperId body))
   || negb (truthyString (ChatBody.message body)) = false ->
   match parseInt (ChatBody.wrapperId body) with
   | Some id => getWrapper id (storage w)
   | None => None
   end <> None ->
   status (fst rw) = 500 \/ status (fst rw) = 200).
Proof.
  cbv zeta. unfold postChatRoute. split; [|split].
  - now intros ->.
  - intros ->. destruct (parseInt _) as [wid|]; [|reflexivity]. now intros ->.
  - intros ->. destruct (parseInt _) as [wid|]; [|congruence].
    destruct (getWrapper _ _); [|congruence]. intros _.
    destruct (assemble _ _ _ _) as [l h].
    destruct (last _); [|now left].
    destruct (Gemini.parts _); [now left|].
    destruct (sendMessage _ _ _); [|now left].
    destruct (persist _ _ _ _ _). now right.
Qed.




Lemma postChatRoute_frame sendMessage now body w :
  let s := storage w in
  let s' := storage (snd (postChatRoute sendMessage now body w)) in
  users s' = users s /\ wrappers s' = wrappers s /\
  prompts s' = prompts s /\ integrations s' = integrations s /\
  currentUserId s' = currentUserId s /\
  currentWrapperId s' = currentWrapperId s /\
  currentPromptId s' = currentPromptId s /\
  currentIntegrationId s' = currentIntegrationId s /\
  (currentConversationId s' = currentConversationId s \/
   currentConversationId s' = currentConversationId s + 1) /\
  (forall id c, getConversation id s = Some c ->
      exists c', getConversation id s' = Some c').
Proof.
  cbv zeta.
  destruct (postChatRoute_storage sendMessage now body w) as [->|(wid & l & ->)].
  { repeat split; try reflexivity; [now left | eauto]. }
  destruct (loadConversation _ _) as [c|]; cbn [persist snd].
  - unfold updateConversation.
    destruct (JsMap.get (Conversation.id c) (conversations (storage w))) eqn:E.
    + cbn [snd]. repeat split; try reflexivity; [now left|].
      intros id c' Hc'. unfold getConversation. cbn [conversations with_conversations].
      destruct (Z.eq_dec (Conversation.id c) id) as [<-|Hne].
      * rewrite get_set_eq. eauto.
      * rewrite get_set_ne by assumption. eauto.
    + repeat split; try reflexivity; [now left | eauto].
  - unfold createConversation. cbn [snd].
    repeat split; try reflexivity; [now right|].
    intros id c' Hc'. unfold getConversation. cbn [conversations with_conversations].
    destruct (Z.eq_dec (currentConversationId (storage w)) id) as [<-|Hne].
    + rewrite get_set_eq. eauto.
    + rewrite get_set_ne by assumption. eauto.
Qed.

(** X11. The chat handler leaves users, wrappers, prompts and integrations
    and their counters alone; it files at most one new conversation, and
    every conversation that was stored still is. *)
Theorem chat_frame sendMessage now body w :
  let s := storage w in
  let s' := storage (snd (postChatRoute sendMessage now body w)) in
  users s' = users s /\ wrappers s' = wrappers s /\
  prompts s' = prompts s /\ integrations s' = integrations s /\
  currentUserId s' = currentUserId s /\
  currentWrapperId s' = currentWrapperId s /\
  currentPromptId s' = currentPromptId s /\
  currentIntegrationId s' = currentIntegrationId s /\
  (currentConversationId s' = currentConversationId s \/
   currentConversationId s' = currentConversationId s + 1) /\
  (forall id c, getConversation id s = Some c ->
      exists c', getConversation id s' = Some c').
Proof. exact (postChatRoute_frame sendMessage now body w). Qed.

(** ** Conversations do not share arrays *)

Lemma handle_conversations_frame r w :
  writesConversations r = false ->
  conversations (storage (snd (handle r w))) = conversations (storage w) /\
  currentConversationId (storage (snd (handle r w)))
  = currentConversationId (storage w) /\
  heap (snd (handle r w)) = heap w.
Proof.
  intros Hr.
  destruct r as [|id|now wb|id wb|id|wrapperId|now wrapperId pb|wrapperId
                |now wrapperId ib|wrapperId|now wrapperId cb|sendMessage now cbody];
    try discriminate; simpl.
  all: unfold getWrappersRoute, getWrapperRoute, postWrapperRoute,
         putWrapperRoute, deleteWrapperRoute, getPromptsRoute, postPromptRoute,
         getIntegrationsRoute, postIntegrationRoute, getConversationsRoute,
         insertWrapperSchema_partial_parse, updateWrapper, deleteWrapper,
         createWrapper, createPrompt, createIntegration, JsMap.delete,
         getWrapper;
       repeat (cbn [fst snd storage heap];
               match goal with
               | |- context [JsMap.get ?k ?m] => destruct (JsMap.get k m)
               | |- context [JsMap.has ?k ?m] => destruct (JsMap.has k m)
               | |- context [match ?x with _ => _ end] => destruct x
               end); repeat split.
Qed.





(** ** The chat handler and the transcripts *)




Lemma chat_fails_in_conversation
    sendMessage now body w wid wrapper cid c :
  storeOk w ->
  truthy (ChatBody.wrapperId body) = true ->
  truthyString (ChatBody.message body) = true ->
  parseInt (ChatBody.wrapperId body) = Some wid ->
  getWrapper wid (storage w) = Some wrapper ->
  truthy (ChatBody.conversationId body) = true ->
  parseInt (ChatBody.conversationId body) = Some cid ->
  getConversation cid (storage w) = Some c ->
  let prior := read (heap w) (Conversation.messages c) in
  let turns := prior ++ seed wrapper prior ++ [userMessage (ChatBody.message body)] in
  sendMessage (modelNameOf wrapper)
    (startChatParamsOf wrapper (map toGemini turns)) (ChatBody.message body)
  = None ->
  let rw := postChatRoute sendMessage now body w in
  fst rw = mkResponse 500 (JsonError "Error communicating with AI model") /\
  storage (snd rw) = storage w /\
  transcript cid w = Some prior /\
  transcript cid (snd rw) = Some turns.
Proof.
  intros Hok Hwrapper Hmessage Hwid Hget Hconv Hcid Hc prior turns Hsend rw.
  destruct (Hok cid c Hc) as (Hid & Hlt & _).
  pose proof (loadConversation_resolves _ _ _ _ Hconv Hcid Hc) as Hload.
  pose proof (postChatRoute_found sendMessage now body w wid wrapper
                Hwrapper Hmessage Hwid Hget) as Hfound.
  pose proof (assemble_read wrapper (ChatBody.message body)
                (loadConversation (ChatBody.conversationId body) (storage w))
                (heap w)) as Hread.
  rewrite Hload in Hfound, Hread. cbn [target] in Hfound, Hread.
  cbv zeta in Hfound, Hread.
  rewrite read_alloc_old in Hfound, Hread by assumption.
  fold prior in Hfound, Hread. fold turns in Hfound, Hread.
  specialize (Hfound ltac:(lia)). specialize (Hread ltac:(lia)).
  rewrite Hsend in Hfound. unfold rw. rewrite Hfound. cbn [fst snd storage].
  split; [reflexivity|]. split; [reflexivity|].
  split; [exact (transcript_get _ _ _ Hc)|].
  rewrite (transcript_get cid _ c) by exact Hc. cbn [heap]. now rewrite Hread.
Qed.

(** X13. A chat request in an existing conversation whose provider call
    fails: the answer is 500, the maps and counters are untouched, and the
    transcript of the conversation has gained the user message (after the
    system message, when the transcript was empty and the wrapper has a
    system prompt). *)
Theorem chat_failure_in_conversation
    sendMessage now body w wid wrapper cid c :
  storeOk w ->
  truthy (ChatBody.wrapperId body) = true ->
  truthyString (ChatBody.message body) = true ->
  parseInt (ChatBody.wrapperId body) = Some wid ->
  getWrapper wid (storage w) = Some wrapper ->
  truthy (ChatBody.conversationId body) = true ->
  parseInt (ChatBody.conversationId body) = Some cid ->
  getConversation cid (storage w) = Some c ->
  let prior := read (heap w) (Conversation.messages c) in
  let turns := prior ++ seed wrapper prior ++ [userMessage (ChatBody.message body)] in
  sendMessage (modelNameOf wrapper)
    (startChatParamsOf wrapper (map toGemini turns)) (ChatBody.message body)
  = None ->
  let rw := postChatRoute sendMessage now body w in
  fst rw = mkResponse 500 (JsonError "Error communicating with AI model") /\
  storage (snd rw) = storage w /\
  transcript cid w = Some prior /\
  transcript cid (snd rw) = Some turns.
Proof. exact (chat_fails_in_conversation sendMessage now body w wid wrapper cid c). Qed.

Lemma chat_failure_in_conversation_witness :
  transcript 1 (snd (postChatRoute failingProvider 2 againBody afterHello))
  = Some ([systemMessage demoSystemPrompt; userMessage "hello";
           assistantMessage "re: hello"] ++ [] ++ [userMessage "again"]).
Proof.
  refine (let H := chat_failure_in_conversation failingProvider 2 againBody
                     afterHello 1 demoWrapper 1 (Conversation.mk 1 1 0 1)
                     (reachable_storeOk _
                        (reachable_serve _ _ (reachable_initial 0)))
                     eq_refl eq_refl eq_refl eq_refl eq_refl eq_refl eq_refl
                     eq_refl in _).
  exact (proj2 (proj2 (proj2 H))).
Defined.



Lemma persist_files now wid conversationId w :
  storeOk w ->
  let conversation := loadConversation conversationId (storage w) in
  let cs := persist now wid (target conversation (heap w)) conversation (storage w) in
  getConversation (Conversation.id (fst cs)) (snd cs) = Some (fst cs) /\
  Conversation.messages (fst cs) = target conversation (heap w).
Proof.
  intros Hok. cbv zeta.
  destruct (loadConversation conversationId (storage w)) as [c|] eqn:Hload;
    cbn [persist target fst snd].
  - apply loadConversation_get in Hload as (id0 & _ & Hc0).
    destruct (Hok _ _ Hc0) as [Hid0 _]. rewrite <- Hid0 in Hc0.
    split; [|reflexivity]. now rewrite getConversation_writeback.
  - split; [|reflexivity]. rewrite getConversation_create.
    cbn [createConversation fst Conversation.id]. now rewrite Z.eqb_refl.
Qed.

(** X15. Every 200 answer of the chat handler names a conversation that is
    stored afterwards and whose transcript ends with the user message of
    the request followed by the assistant message of the answer; the model
    it reports is one of the provider's two. *)
Theorem chat_success_ends_with_the_turn sendMessage now body w r w' :
  storeOk w ->
  postChatRoute sendMessage now body w = (mkResponse 200 (JsonChat r), w') ->
  (exists before,
      transcript (ChatResponse.conversationId r) w'
      = Some (before ++ [userMessage (ChatBody.message body);
                         assistantMessage (ChatResponse.message r)])) /\
  (ChatResponse.model r = "gemini-pro" \/
   ChatResponse.model r = "gemini-pro-vision").
Proof.
  intros Hok Hpost.
  destruct (negb (truthy (ChatBody.wrapperId body))
            || negb (truthyString (ChatBody.message body))) eqn:Hreq.
  { unfold postChatRoute in Hpost. rewrite Hreq in Hpost. discriminate. }
  apply orb_false_elim in Hreq as [Hw Hm].
  apply negb_false_iff in Hw, Hm.
  destruct (parseInt (ChatBody.wrapperId body)) as [wid|] eqn:Hwid.
  2:{ unfold postChatRoute in Hpost. rewrite Hw, Hm, Hwid in Hpost. discriminate. }
  destruct (getWrapper wid (storage w)) as [wrapper|] eqn:Hget.
  2:{ unfold postChatRoute in Hpost. rewrite Hw, Hm, Hwid, Hget in Hpost.
      discriminate. }
  pose proof (target_le w (ChatBody.conversationId body) Hok) as Hl.
  rewrite (postChatRoute_found sendMessage now body w wid wrapper
             Hw Hm Hwid Hget Hl) in Hpost.
  destruct (sendMessage _ _ _) as [responseText|]; [|discriminate].
  pose proof (assemble_length wrapper (ChatBody.message body)
                (loadConversation (ChatBody.conversationId body) (storage w))
                (heap w)) as Hlen.
  pose proof (assemble_read wrapper (ChatBody.message body) _ _ Hl) as Hread.
  cbv zeta in Hread, Hpost.
  remember (snd (assemble wrapper (ChatBody.message body)
                   (loadConversation (ChatBody.conversationId body) (storage w))
                   (heap w))) as h1 eqn:Hh1.
  clear Hh1. injection Hpost as <- <-.
  cbn [ChatResponse.conversationId ChatResponse.message ChatResponse.model].
  split.
  - destruct (persist_files now wid (ChatBody.conversationId body) w Hok)
      as [Hfiled Harray].
    unfold transcript. cbn [storage heap]. rewrite Hfiled, Harray.
    rewrite read_push_eq by lia. rewrite Hread.
    eexists. rewrite !app_assoc. rewrite <- app_assoc. reflexivity.
  - unfold modelNameOf. destruct (String.eqb _ "Gemini Pro"); [now left|].
    destruct (String.eqb _ _); [now right | now left].
Qed.

Lemma chat_success_ends_with_the_turn_witness :
  (exists before,
      transcript 1 (snd (postChatRoute echoProvider 1 helloBody (initialWorld 0)))
      = Some (before ++ [userMessage "hello"; assistantMessage "re: hello"])) /\
  ("gemini-pro" = "gemini-pro" \/ "gemini-pro" = "gemini-pro-vision").
Proof.
  exact (chat_success_ends_with_the_turn echoProvider 1 helloBody
           (initialWorld 0) _ _ (storeOk_initial 0) eq_refl).
Defined.

(** One chat request in an existing conversation, whatever the provider
    answers. *)
Lemma chat_step sendMessage now body w wid wrapper cid c :
  storeOk w ->
  truthy (ChatBody.wrapperId body) = true ->
  truthyString (ChatBody.message body) = true ->
  parseInt (ChatBody.wrapperId body) = Some wid ->
  getWrapper wid (storage w) = Some wrapper ->
  truthy (ChatBody.conversationId body) = true ->
  parseInt (ChatBody.conversationId body) = Some cid ->
  getConversation cid (storage w) = Some c ->
  let w1 := snd (postChatRoute sendMessage now body w) in
  getConversation cid (storage w1) = Some c /\
  read (heap w1) (Conversation.messages c)
  = chatStep sendMessage wrapper (read (heap w) (Conversation.messages c))
      (ChatBody.message body).
Proof.
  intros Hok Hwrapper Hmessage Hwid Hget Hconv Hcid Hc w1. unfold chatStep.
  destruct (sendMessage (modelNameOf wrapper) _ (ChatBody.message body))
    as [responseText|] eqn:Hsend.
  - destruct (chat_continue sendMessage now body w wid wrapper
                Hwrapper Hmessage Hwid Hget cid c responseText
                Hok Hconv Hcid Hc Hsend) as (w' & Hpost & Hc' & Hread).
    unfold w1. rewrite Hpost. cbn [snd]. split; [exact Hc'|]. exact Hread.
  - destruct (chat_fails_in_conversation sendMessage now body w wid wrapper
                cid c Hok Hwrapper Hmessage Hwid Hget Hconv Hcid Hc Hsend)
      as (_ & Hstorage & _ & Hafter).
    fold w1 in Hstorage, Hafter. split.
    + now rewrite Hstorage.
    + unfold transcript in Hafter. rewrite Hstorage, Hc in Hafter.
      now injection Hafter.
Qed.

(** X16. Several chat requests in a row for one wrapper and one existing
    conversation, each with a non-empty message: the transcript at the end
    is the transcript at the start folded through the requests, where each
    request adds the seed and its user message and then, if the provider
    answered, the assistant message; an unanswered message stays in the
    transcript and is part of the history of the next request. *)
Theorem chat_sequence_in_conversation
    sendMessage now wrapperId conversationId messages w wid wrapper cid c :
  storeOk w ->
  truthy wrapperId = true ->
  parseInt wrapperId = Some wid ->
  getWrapper wid (storage w) = Some wrapper ->
  truthy conversationId = true ->
  parseInt conversationId = Some cid ->
  getConversation cid (storage w) = Some c ->
  Forall (fun message => truthyString message = true) messages ->
  transcript cid
    (serve (chatRequests sendMessage now wrapperId conversationId messages) w)
  = Some (fold_left (chatStep sendMessage wrapper) messages
            (read (heap w) (Conversation.messages c))).
Proof.
  intros Hok Hwrapper Hwid Hget Hconv Hcid Hc Hall.
  revert w Hok Hget Hc.
  induction Hall as [|message messages Hmessage _ IH]; intros w Hok Hget Hc.
  - simpl. exact (transcript_get _ _ _ Hc).
  - cbn [chatRequests map serve handle fold_left].
    set (body := ChatBody.mk wrapperId message conversationId).
    destruct (chat_step sendMessage now body w wid wrapper cid c
                Hok Hwrapper Hmessage Hwid Hget Hconv Hcid Hc) as [Hc1 Hread1].
    cbn [ChatBody.message body] in Hread1. rewrite <- Hread1.
    apply IH.
    + now apply storeOk_postChat.
    + destruct (postChatRoute_frame sendMessage now body w) as (_ & Hwr & _).
      unfold getWrapper in *. now rewrite Hwr.
    + exact Hc1.
Qed.

Lemma chat_sequence_in_conversation_witness :
  transcript 1
    (serve (chatRequests echoProvider 2 (JsNum 1) (JsNum 1) ["one"; "two"])
       afterHello)
  = Some (fold_left (chatStep echoProvider demoWrapper) ["one"; "two"]
            [systemMessage demoSystemPrompt; userMessage "hello";
             assistantMessage "re: hello"]).
Proof.
  apply (chat_sequence_in_conversation echoProvider 2 (JsNum 1) (JsNum 1)
           ["one"; "two"] afterHello 1 demoWrapper 1 (Conversation.mk 1 1 0 1));
    try reflexivity.
  - apply reachable_storeOk, reachable_serve, reachable_initial.
  - repeat constructor.
Defined.



(** The translation for the provider keeps the order and the number of
    the messages, gives every entry exactly one part, and knows two roles
    only: a system message becomes a user entry whose text wraps the
    content as a system instruction, a user message a user entry with the
    content, and any other message a model entry with the content. *)
Lemma toGemini_roles (messages : list Message.t) :
  length (map toGemini messages) = length messages /\
  Forall2
    (fun msg entry =>
       (Gemini.role entry = "user" \/ Gemini.role entry = "model") /\
       (Gemini.role entry = "model" <->
        Message.role msg <> "system" /\ Message.role msg <> "user") /\
       Gemini.parts entry
       = [Gemini.mkPart
            (if String.eqb (Message.role msg) "system"
             then ("(System instruction: " ++ Message.content msg ++ ")")%string
             else Message.content msg)])
    messages (map toGemini messages).
Proof.
  split; [apply length_map|].
  induction messages as [|msg messages IH]; simpl; constructor; [|exact IH].
  unfold toGemini.
  destruct (String.eqb_spec (Message.role msg) "system") as [Hs|Hs].
  - cbn. repeat split; try (now left); try discriminate.
    intros [? _]. congruence.
  - destruct (String.eqb_spec (Message.role msg) "user") as [Hu|Hu].
    + cbn. repeat split; try (now left); try discriminate.
      intros [_ ?]. congruence.
    + cbn. repeat split; try (now right); assumption.
Qed.

(** ** Counters *)

Lemma handle_counters r w :
  let s := storage w in
  let s' := storage (snd (handle r w)) in
  (currentUserId s' = currentUserId s) /\
  (currentWrapperId s <= currentWrapperId s' <= currentWrapperId s + 1) /\
  (currentPromptId s <= currentPromptId s' <= currentPromptId s + 1) /\
  (currentIntegrationId s <= currentIntegrationId s'
   <= currentIntegrationId s + 1) /\
  (currentConversationId s <= currentConversationId s'
   <= currentConversationId s + 1).
Proof.
  cbv zeta.
  destruct r as [|id|now wb|id wb|id|wrapperId|now wrapperId pb|wrapperId
                |now wrapperId ib|wrapperId|now wrapperId cb|sendMessage now cbody];
    simpl.
  12:{ destruct (postChatRoute_frame sendMessage now cbody w)
         as (_ & _ & _ & _ & -> & -> & -> & -> & [-> | ->] & _);
         repeat split; lia. }
  all: unfold getWrappersRoute, getWrapperRoute, postWrapperRoute,
         putWrapperRoute, deleteWrapperRoute, getPromptsRoute, postPromptRoute,
         getIntegrationsRoute, postIntegrationRoute, getConversationsRoute,
         postConversationRoute, alloc,
         insertWrapperSchema_partial_parse, updateWrapper, deleteWrapper,
         createWrapper, createPrompt, createIntegration, createConversation,
         JsMap.delete, getWrapper;
       repeat (cbn [fst snd storage heap];
               match goal with
               | |- context [JsMap.get ?k ?m] => destruct (JsMap.get k m)
               | |- context [JsMap.has ?k ?m] => destruct (JsMap.has k m)
               | |- context [match ?x with _ => _ end] => destruct x
               end);
       cbn; repeat split; lia.
Qed.

(** X18. No request makes a counter go back, and a request advances a
    counter by one at most; no request creates a user. *)
Theorem counters_only_grow r w :
  let s := storage w in
  let s' := storage (snd (handle r w)) in
  (currentUserId s' = currentUserId s) /\
  (currentWrapperId s <= currentWrapperId s' <= currentWrapperId s + 1) /\
  (currentPromptId s <= currentPromptId s' <= currentPromptId s + 1) /\
  (currentIntegrationId s <= currentIntegrationId s'
   <= currentIntegrationId s + 1) /\
  (currentConversationId s <= currentConversationId s'
   <= currentConversationId s + 1).
Proof. exact (handle_counters r w). Qed.

(** ** Users *)

Lemma find_first_by_key {V : Type} (f : V -> bool) (m : JsMap.t V) :
  StronglySorted Z.lt (map fst m) ->
  match List.find f (JsMap.values m) with
  | Some v =>
      f v = true /\
      exists k, In (k, v) m /\
                forall k' v', In (k', v') m -> f v' = true -> k <= k'
  | None => forall k' v', In (k', v') m -> f v' = false
  end.
Proof.
  unfold JsMap.values.
  induction m as [|[k v] m IH]; simpl; intros Hs.
  - intros k' v' [].
  - inversion Hs as [|? ? Hs' Hlt]; subst. specialize (IH Hs').
    destruct (f v) eqn:Hf.
    + split; [assumption|]. exists k. split; [now left|].
      intros k' v' [[= <- <-]|Hin] _; [lia|].
      rewrite List.Forall_forall in Hlt.
      specialize (Hlt k' (in_map fst _ _ Hin)). simpl in Hlt. lia.
    + destruct (List.find f (map snd m)) as [u|].
      * destruct IH as (Hfu & k0 & Hin0 & Hmin). split; [assumption|].
        exists k0. split; [now right|].
        intros k' v' [[= <- <-]|Hin] Hfv; [congruence | now apply Hmin with v'].
      * intros k' v' [[= <- <-]|Hin]; [assumption | now apply IH with k'].
Qed.

(** X19. [getUserByUsername] returns a stored user with the name, the
    one with the smallest id (the first created) when several have it, and
    nothing exactly when no stored user has the name. *)
Theorem getUserByUsername_first username s :
  storageOk s ->
  match getUserByUsername username s with
  | Some user =>
      User.username user = username /\
      getUser (User.id user) s = Some user /\
      forall id user',
        getUser id s = Some user' -> User.username user' = username ->
        User.id user <= id
  | None =>
      forall id user', getUser id s = Some user' ->
                       User.username user' <> username
  end.
Proof.
  intros (Hu & _). unfold getUserByUsername, getUser.
  pose proof (find_first_by_key
                (fun user => String.eqb (User.username user) username)
                (users s) (proj1 Hu)) as Hfind.
  destruct (List.find _ _) as [user|].
  - destruct Hfind as (Hname & k & Hin & Hmin).
    apply String.eqb_eq in Hname.
    pose proof (In_get _ _ _ _ _ Hu Hin) as Hget.
    destruct (mapOk_get _ _ _ _ _ Hu Hget) as [Hid _].
    split; [assumption|]. rewrite Hid. split; [assumption|].
    intros id user' Hget' Hname'. apply (Hmin id user').
    + now apply get_In.
    + now apply String.eqb_eq.
  - intros id user' Hget' Hname'.
    specialize (Hfind id user' (get_In _ _ _ Hget')).
    apply String.eqb_neq in Hfind. contradiction.
Qed.

Lemma getUserByUsername_first_witness :
  User.username (User.mk 1 "demo_user" "password123") = "demo_user" /\
  getUser 1 (newMemStorage 0) = Some (User.mk 1 "demo_user" "password123") /\
  forall id user',
    getUser id (newMemStorage 0) = Some user' ->
    User.username user' = "demo_user" -> 1 <= id.
Proof.
  exact (getUserByUsername_first "demo_user" (newMemStorage 0)
           (storageOk_initial 0)).
Defined.

(** ** Ownership *)

(** X20. [PUT /api/wrappers/:id] takes a [userId] from the body like any
    other field: in a reachable world, after an update that carries a
    [userId] other than 1, no wrapper with that id is listed by
    [GET /api/wrappers] any more. *)
Theorem put_wrapper_can_change_owner path id body w old userId :
  reachable w ->
  parseIntString path = Some id ->
  getWrapper id (storage w) = Some old ->
  PartialWrapper.userId body = Some userId ->
  userId <> 1 ->
  let w' := snd (putWrapperRoute path body w) in
  (exists new, getWrapper id (storage w') = Some new /\
               Wrapper.userId new = Some userId) /\
  forall wrapper,
    In wrapper (getWrappersByUserId 1 (storage w')) -> Wrapper.id wrapper <> id.
Proof.
  intros Hr Hpath Hold Huser Hne w'.
  pose proof (reachable_storageOk _
                (reachable_step (PutWrapper path body) w Hr)) as Hok'.
  cbn [handle] in Hok'. fold w' in Hok'. destruct Hok' as (_ & Hw' & _).
  assert (Hnew : getWrapper id (storage w') = Some (mergeWrapper old body)).
  { unfold w', putWrapperRoute, insertWrapperSchema_partial_parse.
    rewrite Hpath. unfold updateWrapper. unfold getWrapper in Hold.
    rewrite Hold. cbn [snd storage]. unfold getWrapper.
    cbn [wrappers with_wrappers]. apply get_set_eq. }
  split.
  - eexists. split; [exact Hnew|]. cbn. now rewrite Huser.
  - intros wrapper Hin Hid.
    unfold getWrappersByUserId in Hin. apply List.filter_In in Hin as [Hin Hmine].
    unfold JsMap.values in Hin. apply in_map_iff in Hin as ([k x] & Hx & Hin).
    simpl in Hx. subst x.
    pose proof (In_get _ _ _ _ _ Hw' Hin) as Hget.
    destruct (mapOk_get _ _ _ _ _ Hw' Hget) as [Hk _].
    rewrite Hid in Hk. subst k. unfold getWrapper in Hnew.
    rewrite Hnew in Hget. injection Hget as <-.
    cbn in Hmine. rewrite Huser in Hmine.
    apply Z.eqb_eq in Hmine. contradiction.
Qed.

Lemma put_wrapper_can_change_owner_witness :
  exists new,
    getWrapper 2
      (storage (snd (putWrapperRoute "2"
                       (PartialWrapper.mk None None None None None None None
                          None None None (Some 7))
                       twoWrappers)))
    = Some new /\
    Wrapper.userId new = Some 7.
Proof.
  refine (let H := put_wrapper_can_change_owner "2" 2
                     (PartialWrapper.mk None None None None None None None
                        None None None (Some 7))
                     twoWrappers otherWrapper 7
                     (reachable_serve _ _ (reachable_initial 0))
                     eq_refl eq_refl eq_refl
                     (proj1 (Z.eqb_neq 7 1) eq_refl) in _).
  exact (proj1 H).
Defined.

(** ** The client's cost estimate *)

(** X21. The client prices every model name the server reports at the
    rates of gpt-3.5-turbo, those names not being in its table; without a
    usage the estimate is 0, with token counts that are not negative it is
    a number that is not negative, and for a model called like a member of
    [Object.prototype] it is NaN. *)
Theorem estimateCost_of_server_models wrapper usage :
  Client.estimateCost (modelNameOf wrapper) usage
  = Client.estimateCost "gpt-3.5-turbo" usage /\
  Client.estimateCost (modelNameOf wrapper) None = Some 0%Q /\
  (forall u, usage = Some u ->
      0 <= prompt_tokens u -> 0 <= completion_tokens u ->
      exists cost,
        Client.estimateCost (modelNameOf wrapper) usage = Some cost /\
        (0 <= cost)%Q) /\
  (forall key u, In key Client.inheritedKeys ->
      Client.estimateCost key (Some u) = None).
Proof.
  assert (Hmodel : modelNameOf wrapper = "gemini-pro" \/
                   modelNameOf wrapper = "gemini-pro-vision").
  { unfold modelNameOf. destruct (String.eqb _ "Gemini Pro"); [now left|].
    destruct (String.eqb _ _); [now right | now left]. }
  split; [|split; [|split]].
  - destruct usage; [|reflexivity]. now destruct Hmodel as [-> | ->].
  - reflexivity.
  - intros u -> Hp Hc. eexists. split.
    + destruct Hmodel as [-> | ->]; reflexivity.
    + cbn [Client.prompt Client.completion].
      unfold Qle, Qplus, Qmult, Qdiv, Qinv, inject_Z. simpl. lia.
  - intros key u Hin. simpl in Hin.
    repeat (destruct Hin as [<-|Hin]; [reflexivity|]). contradiction.
Qed.

(** ** Across requests *)




Lemma world_eta w s h : storage w = s -> heap w = h -> w = mkWorld s h.
Proof. destruct w. simpl. now intros -> ->. Qed.

(** X23. A 400 or 404 answer means that nothing happened: whatever the
    request, the world after such an answer is the world before. *)
Theorem client_error_changes_nothing r w :
  status (fst (handle r w)) = 400 \/ status (fst (handle r w)) = 404 ->
  snd (handle r w) = w.
Proof.
  destruct r as [|id|now wb|id wb|id|wrapperId|now wrapperId pb|wrapperId
                |now wrapperId ib|wrapperId|now wrapperId cb|sendMessage now cbody];
    simpl.
  - reflexivity.
  - unfold getWrapperRoute. destruct (parseIntString id); [|reflexivity].
    now destruct (getWrapper _ _).
  - unfold postWrapperRoute.
    destruct (insertWrapperSchema_parse _); [|reflexivity].
    unfold createWrapper. cbn. intros [?|?]; discriminate.
  - unfold putWrapperRoute, insertWrapperSchema_partial_parse.
    destruct (parseIntString id) as [k|]; [|reflexivity].
    unfold updateWrapper. destruct (JsMap.get _ _); [|reflexivity].
    cbn. intros [?|?]; discriminate.
  - unfold deleteWrapperRoute.
    destruct (parseIntString id) as [k|]; [|reflexivity].
    unfold deleteWrapper, JsMap.delete, JsMap.has.
    destruct (JsMap.get k (wrappers (storage w))) eqn:E.
    + cbn. intros [?|?]; discriminate.
    + intros _. cbn [snd]. rewrite (remove_absent _ _ E).
      destruct w as [[] ?]. reflexivity.
  - unfold getPromptsRoute. now destruct (parseIntString _).
  - unfold postPromptRoute.
    destruct (parseIntString wrapperId) as [k|]; [|reflexivity].
    destruct (getWrapper _ _); [|reflexivity].
    destruct (insertPromptSchema_parse _); [|reflexivity].
    unfold createPrompt. cbn. intros [?|?]; discriminate.
  - unfold getIntegrationsRoute. now destruct (parseIntString _).
  - unfold postIntegrationRoute.
    destruct (parseIntString wrapperId) as [k|]; [|reflexivity].
    destruct (getWrapper _ _); [|reflexivity].
    destruct (insertIntegrationSchema_parse _); [|reflexivity].
    unfold createIntegration. cbn. intros [?|?]; discriminate.
  - unfold getConversationsRoute. now destruct (parseIntString _).
  - unfold postConversationRoute.
    destruct (parseIntString wrapperId) as [k|]; [|reflexivity].
    destruct (getWrapper _ _); [|reflexivity].
    destruct (ConversationBody.messages cb); [|reflexivity].
    unfold alloc, createConversation. cbn. intros [?|?]; discriminate.
  - intros Hstatus.
    destruct (postChatRoute_status sendMessage now cbody w) as (H400 & H404 & Hrun).
    cbv zeta in H400, H404, Hrun.
    destruct (negb (truthy (ChatBody.wrapperId cbody))
              || negb (truthyString (ChatBody.message cbody))) eqn:Hreq.
    + now rewrite (H400 eq_refl).
    + destruct (match parseInt (ChatBody.wrapperId cbody) with
                | Some id => getWrapper id (storage w)
                | None => None
                end) eqn:Hfound.
      * destruct (Hrun eq_refl ltac:(discriminate)) as [E|E];
          rewrite E in Hstatus; destruct Hstatus; discriminate.
      * now rewrite (H404 eq_refl eq_refl).
Qed.

Lemma client_error_changes_nothing_witness :
  snd (handle (DeleteWrapper "9") (initialWorld 0)) = initialWorld 0.
Proof.
  apply client_error_changes_nothing. right. reflexivity.
Defined.

Lemma handle_append_only r w :
  storeOk w ->
  forall id turns,
    transcript id w = Some turns ->
    exists added, transcript id (snd (handle r w)) = Some (turns ++ added).
Proof.
  intros Hok id turns Hturns.
  destruct (writesConversations r) eqn:Hr.
  2:{ destruct (handle_conversations_frame r w Hr) as (Hc & _ & Hh).
      exists []. rewrite app_nil_r, <- Hturns.
      unfold transcript, getConversation. now rewrite Hc, Hh. }
  destruct r as [|pid|now wb|pid wb|pid|wrapperId|now wrapperId pb|wrapperId
                |now wrapperId ib|wrapperId|now wrapperId cb|sendMessage now cbody];
    try discriminate; simpl.
  - exists []. rewrite app_nil_r, <- Hturns.
    unfold postConversationRoute.
    destruct (parseIntString wrapperId) as [k|]; [|reflexivity].
    destruct (getWrapper k (storage w)); [|reflexivity].
    destruct (ConversationBody.messages cb) as [ms|]; [|reflexivity].
    unfold alloc, createConversation. cbn [snd].
    apply transcript_inv in Hturns as (c & Hc & _).
    destruct (Hok id c Hc) as (_ & Hlt & Hcount).
    unfold transcript, getConversation in *.
    cbn [storage heap conversations with_conversations].
    rewrite get_set_ne by lia. rewrite Hc. now rewrite read_alloc_old.
  - now apply chat_append_only.
Qed.

(** X24. Transcripts only grow: in a reachable world, after any list of
    further requests every stored conversation is still stored and its
    transcript is the former one with messages added at the end at most.
    No request removes or rewrites a message. *)
Theorem transcripts_append_only rs w id turns :
  reachable w ->
  transcript id w = Some turns ->
  exists added, transcript id (serve rs w) = Some (turns ++ added).
Proof.
  intros Hr. revert turns.
  induction rs as [|r rs IH] using rev_ind; intros turns Hturns.
  - exists []. now rewrite app_nil_r.
  - destruct (IH turns Hturns) as (added & Hmid).
    assert (Hserve : serve (rs ++ [r]) w = snd (handle r (serve rs w))).
    { clear. revert w. induction rs as [|r0 rs IH]; intros w; simpl;
        [reflexivity | apply IH]. }
    rewrite Hserve.
    destruct (handle_append_only r (serve rs w)
                (reachable_storeOk _ (reachable_serve rs w Hr)) id _ Hmid)
      as (more & Hend).
    exists (added ++ more). now rewrite app_assoc.
Qed.

Lemma transcripts_append_only_witness :
  exists added,
    transcript 1
      (serve [DeleteWrapper "1"; PostChat failingProvider 2 crossBody]
         afterHello)
    = Some ([systemMessage demoSystemPrompt; userMessage "hello";
             assistantMessage "re: hello"] ++ added).
Proof.
  apply (transcripts_append_only
           [DeleteWrapper "1"; PostChat failingProvider 2 crossBody]
           afterHello 1).
  - apply reachable_serve, reachable_initial.
  - reflexivity.
Defined.
